(** * Data Janitor (app.py): quality score, cleaning job and export block

    A shallow embedding of the logic of [app.py]: the helper functions
    [calculate_quality_score] and [is_valid_email], the "Run Cleaning Job"
    block of the Deep Clean mode and the platform block of the Export Tools
    mode, together with the parts of Python and pandas they call.

    Text is ASCII: a Python [str] is a [string] of one-byte characters, and
    [lower], [title] and [strip] below are Python's methods on such text.
    Numbers in cells are integers.  Floating-point arithmetic of the score is
    IEEE-754 binary64, taken from the Standard Library's [SpecFloat]. *)

From stdpp Require Import base gmap strings list.
From Stdlib Require Import ZArith List String Ascii Bool Lia QArith.
From Stdlib Require Import SpecFloat DecimalString.
Import ListNotations.

Local Open Scope Z_scope.
Local Open Scope string_scope.

(* ------------------------------------------------------------------ *)
(** ** Python strings *)

(** A text is a string of one-byte characters.  The functions of this
    module are Python's on ASCII texts (every code below 128).  On other
    texts Python follows the Unicode tables: [str.lower] and [str.title]
    change the case of letters outside A-Z and a-z, [str.strip] also
    removes the whitespace outside ASCII; statements about these functions
    are made for ASCII texts. *)
Module PyStr.

Definition code (c : ascii) : N := N_of_ascii c.

Definition is_upper (c : ascii) : bool := (65 <=? code c)%N && (code c <=? 90)%N.
Definition is_lower (c : ascii) : bool := (97 <=? code c)%N && (code c <=? 122)%N.
Definition is_digit (c : ascii) : bool := (48 <=? code c)%N && (code c <=? 57)%N.

(** [str.isalpha] on one ASCII character; these are also the cased
    characters of [str.title]. *)
Definition is_alpha (c : ascii) : bool := is_upper c || is_lower c.

(** The characters [str.strip()] removes: tab, line feed, vertical tab,
    form feed, carriage return, the separators 0x1C-0x1F and space. *)
Definition is_space (c : ascii) : bool :=
  ((9 <=? code c)%N && (code c <=? 13)%N)
  || ((28 <=? code c)%N && (code c <=? 32)%N).

Definition lower_char (c : ascii) : ascii :=
  if is_upper c then ascii_of_N (code c + 32) else c.
Definition upper_char (c : ascii) : ascii :=
  if is_lower c then ascii_of_N (code c - 32) else c.

Fixpoint map_chars (f : ascii -> ascii) (s : string) : string :=
  match s with
  | EmptyString => EmptyString
  | String c s' => String (f c) (map_chars f s')
  end.

(** [s.lower()], for an ASCII text. *)
Definition lower (s : string) : string := map_chars lower_char s.

(** [s.replace(old, new)] for one-character [old] and [new]. *)
Definition replace (old new : ascii) (s : string) : string :=
  map_chars (fun c => if Ascii.eqb c old then new else c) s.

(** [needle in s] *)
Fixpoint contains (needle s : string) : bool :=
  String.prefix needle s
  || match s with
     | EmptyString => false
     | String _ s' => contains needle s'
     end.

(** [s.title()], for an ASCII text: CPython walks the string with a flag
    telling whether the previous character was cased; a character after a
    cased one is lower-cased, any other is title-cased.  The cased ASCII
    characters are the letters, and their title case is their upper case. *)
Fixpoint title_from (previous_is_cased : bool) (s : string) : string :=
  match s with
  | EmptyString => EmptyString
  | String c s' =>
      String (if previous_is_cased then lower_char c else upper_char c)
             (title_from (is_alpha c) s')
  end.

Definition title (s : string) : string := title_from false s.

Fixpoint lstrip (s : string) : string :=
  match s with
  | EmptyString => EmptyString
  | String c s' => if is_space c then lstrip s' else s
  end.

Fixpoint rstrip (s : string) : string :=
  match s with
  | EmptyString => EmptyString
  | String c s' =>
      match rstrip s' with
      | EmptyString => if is_space c then EmptyString else String c EmptyString
      | r => String c r
      end
  end.

(** [s.strip()], for an ASCII text. *)
Definition strip (s : string) : string := rstrip (lstrip s).

(** [str(n)] for a Python int. *)
Definition str_of_int (z : Z) : string := NilZero.string_of_int (Z.to_int z).

End PyStr.

(* ------------------------------------------------------------------ *)
(** ** The fragment of Python's [re] that [is_valid_email] uses *)

Module Re.

(** One item of a pattern: the anchors, a literal character, a character
    class repeated one or more times ([[...]+]) and a character class
    repeated at least [n] times ([[...]{n,}]). *)
Inductive item :=
| Caret
| Dollar
| Lit (c : ascii)
| Plus (cls : ascii -> bool)
| AtLeast (n : nat) (cls : ascii -> bool).

Definition pattern := list item.

(** [$] without MULTILINE: at the end of the string, or just before a
    line feed that is the last character of the string. *)
Definition at_end (s : string) : bool :=
  match s with
  | EmptyString => true
  | String c EmptyString => Ascii.eqb c "010"%char
  | _ => false
  end.

(** Zero or more characters of [cls], then the continuation [k]. *)
Fixpoint star (cls : ascii -> bool) (k : string -> bool) (s : string) : bool :=
  k s
  || match s with
     | String c s' => cls c && star cls k s'
     | EmptyString => false
     end.

(** Exactly [n] characters of [cls], then [k]. *)
Fixpoint exactly (n : nat) (cls : ascii -> bool) (k : string -> bool)
    (s : string) : bool :=
  match n with
  | O => k s
  | S n' =>
      match s with
      | String c s' => cls c && exactly n' cls k s'
      | EmptyString => false
      end
  end.

(** Does the pattern match starting here?  [bos] tells whether the current
    position is the beginning of the string.  Backtracking tries every
    split, so the answer does not depend on greediness. *)
Fixpoint matches (p : pattern) (bos : bool) (s : string) : bool :=
  match p with
  | [] => true
  | Caret :: p' => bos && matches p' bos s
  | Dollar :: p' => at_end s && matches p' bos s
  | Lit c :: p' =>
      match s with
      | String c' s' => Ascii.eqb c' c && matches p' false s'
      | EmptyString => false
      end
  | Plus cls :: p' => exactly 1 cls (star cls (matches p' false)) s
  | AtLeast n cls :: p' =>
      match n with
      | O => matches p' bos s || exactly 1 cls (star cls (matches p' false)) s
      | S _ => exactly n cls (star cls (matches p' false)) s
      end
  end.

(** [re.match(p, s) is not None] *)
Definition re_match (p : pattern) (s : string) : bool := matches p true s.

(** [re.sub(p, '', s)] for a pattern [p] that is one character class: every
    character of the class is removed. *)
Fixpoint sub_empty (cls : ascii -> bool) (s : string) : string :=
  match s with
  | EmptyString => EmptyString
  | String c s' => if cls c then sub_empty cls s' else String c (sub_empty cls s')
  end.

End Re.

(* ------------------------------------------------------------------ *)
(** ** binary64 arithmetic *)

Module Float64.

Definition prec : Z := 53.
Definition emax : Z := 1024.

Definition float := spec_float.

(** Conversion of a Python int, rounding to nearest even. *)
Definition of_int (z : Z) : float := binary_normalize prec emax z 0 false.

Definition mul : float -> float -> float := SFmul prec emax.
Definition div : float -> float -> float := SFdiv prec emax.
Definition sub : float -> float -> float := SFsub prec emax.

(** The literals [0.7] and [0.3]: the doubles nearest to 7/10 and 3/10. *)
Definition lit_0_7 : float := Eval vm_compute in div (of_int 7) (of_int 10).
Definition lit_0_3 : float := Eval vm_compute in div (of_int 3) (of_int 10).

(** The integer part of [m * 2^e], for a positive mantissa. *)
Definition int_part (m : positive) (e : Z) : Z :=
  match e with
  | Z0 => Zpos m
  | Zpos _ => Zpos m * 2 ^ e
  | Zneg p => Zpos m / 2 ^ Zpos p
  end.

(** [int(x)] truncates toward zero; it raises on NaN and on infinities. *)
Definition to_int (x : float) : option Z :=
  match x with
  | S754_zero _ => Some 0
  | S754_finite s m e => Some (cond_Zopp s (int_part m e))
  | S754_infinity _ | S754_nan => None
  end.

End Float64.

(* ------------------------------------------------------------------ *)
(** ** Exceptions *)

Inductive exn :=
| KeyError (key : string)
| ValueError
| OverflowError.

Inductive result (A : Type) :=
| Ok (a : A)
| Raise (e : exn).
Arguments Ok {A} a.
Arguments Raise {A} e.

Definition bind {A B} (r : result A) (k : A -> result B) : result B :=
  match r with
  | Ok a => k a
  | Raise e => Raise e
  end.

(* ------------------------------------------------------------------ *)
(** ** The pandas objects the application touches *)

(** A cell as [read_csv] delivers it: a missing value (NaN), a text, or a
    number.  Numbers are the integers of an int64 column, and [str] renders
    them in decimal; of a float column only the missing values appear, and
    boolean cells are not represented. *)
Inductive cell :=
| CNaN
| CStr (s : string)
| CInt (z : Z).

(** The element type of a column; only the distinction between [object]
    columns (text) and the others matters to the application. *)
Inductive dtype :=
| DObject
| DNumeric.

Record Series := { name : string; dtype_of : dtype; values : list cell }.

(** A frame: the row labels and the columns, in order.  [read_csv] gives
    every column a name of its own. *)
Record DataFrame := { index : list Z; columns : list Series }.

#[global] Instance cell_eq_dec : EqDecision cell.
Proof. solve_decision. Defined.
#[global] Instance dtype_eq_dec : EqDecision dtype.
Proof. solve_decision. Defined.

Definition row := list cell.

Module Pandas.

(** [len(df)], [df.shape[1]], [df.size], [df.empty] *)
Definition len (df : DataFrame) : nat := List.length (index df).
Definition shape1 (df : DataFrame) : nat := List.length (columns df).
Definition size (df : DataFrame) : nat := (len df * shape1 df)%nat.
Definition empty (df : DataFrame) : bool :=
  Nat.eqb (len df) 0 || Nat.eqb (shape1 df) 0.

Definition isnull (c : cell) : bool :=
  match c with
  | CNaN => true
  | _ => false
  end.

Definition count_true (mask : list bool) : nat :=
  List.length (List.filter (fun b : bool => b) mask).

(** [df.isnull().sum()]: the missing cells of each column. *)
Definition isnull_sum (df : DataFrame) : list (string * nat) :=
  map (fun c => (name c, count_true (map isnull (values c)))) (columns df).

(** [df.isnull().sum().sum()] *)
Definition isnull_sum_sum (df : DataFrame) : nat :=
  list_sum (map snd (isnull_sum df)).

(** The first [n] rows of a list of columns, by position. *)
Fixpoint iloc_rows (n : nat) (cols : list (list cell)) : list row :=
  match n with
  | O => []
  | S n' => map (hd CNaN) cols :: iloc_rows n' (map (@tl cell) cols)
  end.

Definition rows (df : DataFrame) : list row :=
  iloc_rows (len df) (map values (columns df)).

(** For each row, whether an equal row came before it (NaN equals NaN). *)
Fixpoint seen_before (seen : list row) (rs : list row) : list bool :=
  match rs with
  | [] => []
  | r :: rs' => bool_decide (r ∈ seen) :: seen_before (r :: seen) rs'
  end.

(** [df.duplicated()], with [keep='first']; pandas answers an empty mask
    for a frame without rows or without columns. *)
Definition duplicated (df : DataFrame) : list bool :=
  if empty df then [] else seen_before [] (rows df).

(** Selection by a boolean mask. *)
Fixpoint bool_index {A} (mask : list bool) (l : list A) : list A :=
  match mask, l with
  | b :: mask', x :: l' =>
      if b then x :: bool_index mask' l' else bool_index mask' l'
  | _, _ => []
  end.

Definition with_values (f : list cell -> list cell) (c : Series) : Series :=
  {| name := name c; dtype_of := dtype_of c; values := f (values c) |}.

(** [df[mask]] *)
Definition select_rows (mask : list bool) (df : DataFrame) : DataFrame :=
  {| index := bool_index mask (index df);
     columns := map (with_values (bool_index mask)) (columns df) |}.

(** [df.drop_duplicates()]; an empty frame is returned as it is. *)
Definition drop_duplicates (df : DataFrame) : DataFrame :=
  if empty df then df else select_rows (map negb (duplicated df)) df.

(** [df.dropna(how='all')]: keep the rows with a cell that is not null. *)
Definition dropna_all (df : DataFrame) : DataFrame :=
  select_rows (map (existsb (fun c => negb (isnull c))) (rows df)) df.

(** [series.str.f()]: [f] on the texts, NaN elsewhere.  This is the
    accessor on a column of texts and missing values, possibly mixed with
    other values; on an [object] column whose values are all of one other
    kind pandas raises [AttributeError] instead, a case left out here and
    excluded wherever a statement describes a text step. *)
Definition str_map (f : string -> string) (vals : list cell) : list cell :=
  map (fun c => match c with
                | CStr s => CStr (f s)
                | _ => CNaN
                end) vals.

Definition is_object (c : Series) : bool := bool_decide (dtype_of c = DObject).

(** [df[col]]: the column of that name. *)
Definition getitem (df : DataFrame) (col : string) : result Series :=
  match List.find (fun c => bool_decide (name c = col)) (columns df) with
  | Some c => Ok c
  | None => Raise (KeyError col)
  end.

(** [series.apply(f)] *)
Definition apply {B} (f : cell -> B) (c : Series) : list B := map f (values c).

(** [df[key]] for the Series [key] that [apply] returned.  A [key] of
    booleans selects rows.  On a column without rows [apply] returns an
    empty Series of the column's own type, which is no boolean mask: pandas
    then reads [key] as a list of column labels, of which there are none,
    and answers a frame without columns. *)
Definition getitem_applied (key : list bool) (df : DataFrame) : DataFrame :=
  match key with
  | [] => {| index := index df; columns := [] |}
  | _ :: _ => select_rows key df
  end.

(** [df.columns = names], positionally. *)
Definition set_columns (names : list string) (df : DataFrame) : DataFrame :=
  {| index := index df;
     columns := map (fun '(n, c) => {| name := n; dtype_of := dtype_of c;
                                       values := values c |})
                    (combine names (columns df)) |}.

End Pandas.

(* ------------------------------------------------------------------ *)
(** ** Objects and references

    Frames are objects: a variable or a session entry holds a reference, and
    an in-place method changes the object every reference sees. *)

Definition loc := positive.

Inductive pyval :=
| VFrame (l : loc)
| VStr (s : string)
| VBool (b : bool).

#[global] Instance pyval_eq_dec : EqDecision pyval.
Proof. solve_decision. Defined.

(** The interpreter's objects and Streamlit's [st.session_state]. *)
Record world := { heap : gmap loc DataFrame; session_state : gmap string pyval }.

Definition M (A : Type) : Type := world -> result (A * world).

#[global] Instance M_ret : MRet M := fun A (a : A) w => Ok (a, w).
#[global] Instance M_bind : MBind M :=
  fun A B (k : A -> M B) (m : M A) w =>
    match m w with
    | Ok (a, w') => k a w'
    | Raise e => Raise e
    end.

Definition raise {A} (e : exn) : M A := fun _ => Raise e.

(** A new object holding [df]; what [df.copy()], [read_csv] and [df[mask]]
    return. *)
Definition new_obj (df : DataFrame) : M loc :=
  fun w => let l := fresh (dom (heap w)) in
           Ok (l, {| heap := <[l := df]> (heap w);
                     session_state := session_state w |}).

Definition deref (l : loc) : M DataFrame :=
  fun w => match heap w !! l with
           | Some df => Ok (df, w)
           | None => Raise (KeyError "")
           end.

(** An in-place method on the object at [l]. *)
Definition update (l : loc) (f : DataFrame -> DataFrame) : M unit :=
  fun w => match heap w !! l with
           | Some df => Ok (tt, {| heap := <[l := f df]> (heap w);
                                   session_state := session_state w |})
           | None => Raise (KeyError "")
           end.

Definition session_get (key : string) : M (option pyval) :=
  fun w => Ok (session_state w !! key, w).

Definition session_set (key : string) (v : pyval) : M unit :=
  fun w => Ok (tt, {| heap := heap w;
                      session_state := <[key := v]> (session_state w) |}).

(** [st.session_state.cleaned_df] *)
Definition session_cleaned_df : M loc :=
  v ← session_get "cleaned_df";
  match v with
  | Some (VFrame l) => mret l
  | _ => raise (KeyError "cleaned_df")
  end.

Definition when (b : bool) (m : M unit) : M unit := if b then m else mret tt.

(* ------------------------------------------------------------------ *)
(** ** app.py *)

Module App.
Import Pandas.

(** *** Helper functions *)

(** [calculate_quality_score(df)] *)
Definition calculate_quality_score (df : DataFrame) : result Z :=
  let total_cells := Z.of_nat (size df) in
  let total_missing := Z.of_nat (isnull_sum_sum df) in
  let duplicate_rows := Z.of_nat (count_true (duplicated df)) in
  let missing_penalty :=
    if total_cells >? 0
    then Float64.mul (Float64.div (Float64.of_int total_missing)
                                  (Float64.of_int total_cells))
                     (Float64.of_int 100)
    else Float64.of_int 0 in
  let duplicate_penalty :=
    if Z.of_nat (len df) >? 0
    then Float64.mul (Float64.div (Float64.of_int duplicate_rows)
                                  (Float64.of_int (Z.of_nat (len df))))
                     (Float64.of_int 100)
    else Float64.of_int 0 in
  let score :=
    Float64.sub
      (Float64.sub (Float64.of_int 100)
                   (Float64.mul missing_penalty Float64.lit_0_7))
      (Float64.mul duplicate_penalty Float64.lit_0_3) in
  match score with
  | S754_nan => Raise ValueError
  | S754_infinity _ => Raise OverflowError
  | _ => match Float64.to_int score with
         | Some n => Ok (Z.max 0 n)
         | None => Raise ValueError
         end
  end.

(** [str(x)] of a cell. *)
Definition py_str (c : cell) : string :=
  match c with
  | CNaN => "nan"
  | CStr s => s
  | CInt z => PyStr.str_of_int z
  end.

(** The classes of the e-mail pattern. *)
Definition alnum (c : ascii) : bool := PyStr.is_alpha c || PyStr.is_digit c.
Definition one_of (set : string) (c : ascii) : bool :=
  existsb (Ascii.eqb c) (list_ascii_of_string set).
Definition local_class (c : ascii) : bool := alnum c || one_of "._%+-" c.
Definition domain_class (c : ascii) : bool := alnum c || one_of ".-" c.

(** [r'^[a-zA-Z0-9._%+-]+@[a-zA-Z0-9.-]+\.[a-zA-Z]{2,}$'] *)
Definition pattern : Re.pattern :=
  [ Re.Caret; Re.Plus local_class; Re.Lit "@"; Re.Plus domain_class;
    Re.Lit "."; Re.AtLeast 2 PyStr.is_alpha; Re.Dollar ].

(** [is_valid_email(email)] *)
Definition is_valid_email (email : cell) : bool :=
  Re.re_match pattern (py_str email).

(** [\D]: any character that is not a digit; among the ASCII characters
    the digits are 0-9. *)
Definition non_digit (c : ascii) : bool := negb (PyStr.is_digit c).

(** [clean_phone(phone)] *)
Definition clean_phone (phone : cell) : cell :=
  if isnull phone then phone
  else CStr (Re.sub_empty non_digit (py_str phone)).

(** *** Health Audit: the score and the three metrics next to it *)

Record audit := {
  score : result Z;
  duplicates : nat;
  missing_values : nat;
  n_columns : nat;
  missing_per_column : list (string * nat)
}.

Definition health_audit (df : DataFrame) : audit :=
  {| score := calculate_quality_score df;
     duplicates := count_true (duplicated df);
     missing_values := isnull_sum_sum df;
     n_columns := shape1 df;
     missing_per_column := isnull_sum df |}.

(** *** Deep Clean *)

(** The widgets of the configuration column. *)
Record config := {
  chk_duplicates : bool;
  chk_empty_rows : bool;
  chk_title_case : bool;
  chk_trim : bool;
  email_col : string;
  chk_validate_email : bool
}.

(** [for col in obj_cols: temp_df[col] = temp_df[col].str.strip()] *)
Definition trim_whitespace (df : DataFrame) : DataFrame :=
  {| index := index df;
     columns := map (fun c => if is_object c
                              then with_values (str_map PyStr.strip) c
                              else c) (columns df) |}.

(** ['name' in col.lower()] *)
Definition name_like (col : string) : bool :=
  PyStr.contains "name" (PyStr.lower col).

(** [for col in obj_cols: if 'name' in col.lower():
      temp_df[col] = temp_df[col].str.title()] *)
Definition title_case_names (df : DataFrame) : DataFrame :=
  {| index := index df;
     columns := map (fun c => if is_object c && name_like (name c)
                              then with_values (str_map PyStr.title) c
                              else c) (columns df) |}.

(** [temp_df[temp_df[email_col].apply(is_valid_email)]] *)
Definition filter_emails (col : string) (df : DataFrame) : result DataFrame :=
  bind (getitem df col) (fun c => Ok (getitem_applied (apply is_valid_email c) df)).

Definition email_step_runs (cfg : config) : bool :=
  negb (bool_decide (email_col cfg = "None")) && chk_validate_email cfg.

(** The body of [if st.button("Run Cleaning Job")], for the frame [df] read
    from the upload. *)
Definition run_cleaning_job (cfg : config) (df : loc) : M loc :=
  d ← deref df;
  temp_df ← new_obj d;
  when (chk_duplicates cfg) (update temp_df drop_duplicates) ;;
  when (chk_empty_rows cfg) (update temp_df dropna_all) ;;
  when (chk_trim cfg) (update temp_df trim_whitespace) ;;
  when (chk_title_case cfg) (update temp_df title_case_names) ;;
  temp_df ← (if email_step_runs cfg
              then t ← deref temp_df;
                   match filter_emails (email_col cfg) t with
                   | Ok t' => new_obj t'
                   | Raise e => raise e
                   end
              else mret temp_df);
  session_set "cleaned_df" (VFrame temp_df) ;;
  session_set "cleaning_complete" (VBool true) ;;
  mret temp_df.

(** The table the job computes, as a function of the table it reads. *)
Definition clean (cfg : config) (t : DataFrame) : result DataFrame :=
  let t := if chk_duplicates cfg then drop_duplicates t else t in
  let t := if chk_empty_rows cfg then dropna_all t else t in
  let t := if chk_trim cfg then trim_whitespace t else t in
  let t := if chk_title_case cfg then title_case_names t else t in
  if email_step_runs cfg then filter_emails (email_col cfg) t else Ok t.

(** *** Export Tools *)

(** [c.lower().replace(' ', '_')] *)
Definition snake_case (c : string) : string :=
  PyStr.replace " " "_" (PyStr.lower c).

(** The renaming the platform block applies to a frame. *)
Definition format_columns (platform : string) (t : DataFrame) : DataFrame :=
  if bool_decide (platform = "Salesforce Compatible")
  then set_columns (map (fun c => snake_case (name c)) (columns t)) t
  else t.

(** The platform block: [clean_data] is the session's frame itself, and
    the assignment to [clean_data.columns] renames it in place.  The value
    is the reference serialised by [to_csv]. *)
Definition export_tools (platform : string) : M loc :=
  clean_data ← session_cleaned_df;
  when (bool_decide (platform = "Salesforce Compatible"))
       (update clean_data
               (fun t => set_columns (map (fun c => snake_case (name c)) (columns t)) t)) ;;
  mret clean_data.

(** *** The top of the script: the upload and the session entry *)
Definition load (file_name : string) (parsed : DataFrame) : M loc :=
  df ← new_obj parsed;
  cleaned ← session_get "cleaned_df";
  last ← session_get "last_file";
  when (bool_decide (cleaned = None)
        || negb (bool_decide (last = Some (VStr file_name))))
       (d ← deref df;
        c ← new_obj d;
        session_set "cleaned_df" (VFrame c) ;;
        session_set "last_file" (VStr file_name)) ;;
  mret df.

End App.

(* ------------------------------------------------------------------ *)
(** ** Well-formed frames *)

(** Every column has one value per row label. *)
Definition aligned (df : DataFrame) : Prop :=
  Forall (fun c => List.length (values c) = Pandas.len df) (columns df).

(* ------------------------------------------------------------------ *)
(** ** The specification's own formulations, for comparison *)

Module Spec.
Import Pandas.

(** Truncation of a rational toward zero. *)
Definition truncate (q : Q) : Z := Z.quot (Qnum q) (Zpos (Qden q)).

(** The score over the rationals: 100 - 0.7 * missing_penalty
    - 0.3 * duplicate_penalty, truncated and clamped below at 0. *)
Definition exact_score (df : DataFrame) : Z :=
  let total_cells := Z.of_nat (size df) in
  let total_missing := Z.of_nat (isnull_sum_sum df) in
  let duplicate_rows := Z.of_nat (count_true (duplicated df)) in
  let n_rows := Z.of_nat (len df) in
  let missing_penalty : Q :=
    if total_cells >? 0
    then (inject_Z total_missing / inject_Z total_cells * 100)%Q else 0%Q in
  let duplicate_penalty : Q :=
    if n_rows >? 0
    then (inject_Z duplicate_rows / inject_Z n_rows * 100)%Q else 0%Q in
  Z.max 0 (truncate (100 - (7 # 10) * missing_penalty
                         - (3 # 10) * duplicate_penalty)%Q).

(** Title case by whitespace-separated words: the first character of each
    word upper-cased, the rest of the word lower-cased. *)
Fixpoint words_from (word_start : bool) (s : string) : string :=
  match s with
  | EmptyString => EmptyString
  | String c s' =>
      String (if word_start then PyStr.upper_char c else PyStr.lower_char c)
             (words_from (PyStr.is_space c) s')
  end.

Definition title_words (s : string) : string := words_from true s.

(** The title-case step with [title_words] in place of [str.title]. *)
Definition title_case_names_by_words (df : DataFrame) : DataFrame :=
  {| index := index df;
     columns := map (fun c => if is_object c && App.name_like (name c)
                              then with_values (str_map title_words) c
                              else c) (columns df) |}.

(** The rows of a list that are not equal to an earlier row, in order. *)
Fixpoint first_occurrences (seen : list row) (rs : list row) : list row :=
  match rs with
  | [] => []
  | r :: rs' =>
      if bool_decide (r ∈ seen) then first_occurrences seen rs'
      else r :: first_occurrences (r :: seen) rs'
  end.

Definition all_in (cls : ascii -> bool) (s : string) : Prop :=
  forallb cls (list_ascii_of_string s) = true.

(** A text of the form local@domain.tld: one or more local characters,
    one or more domain characters, two or more letters. *)
Definition email_shape (s : string) : Prop :=
  exists l d t : string,
    s = l ++ "@" ++ d ++ "." ++ t
    /\ l <> "" /\ all_in App.local_class l
    /\ d <> "" /\ all_in App.domain_class d
    /\ (2 <= String.length t)%nat /\ all_in PyStr.is_alpha t.

End Spec.

(* ================================================================== *)
(** * Definitions used in the statements *)

Import Pandas App.

(** ** Configurations *)

Definition all_disabled (cfg : config) : Prop :=
  chk_duplicates cfg = false /\ chk_empty_rows cfg = false
  /\ chk_trim cfg = false /\ chk_title_case cfg = false
  /\ chk_validate_email cfg = false.

Definition only_duplicates (cfg : config) : Prop :=
  chk_duplicates cfg = true /\ chk_empty_rows cfg = false
  /\ chk_trim cfg = false /\ chk_title_case cfg = false
  /\ chk_validate_email cfg = false.

Definition without_email_check (cfg : config) : config :=
  {| chk_duplicates := chk_duplicates cfg;
     chk_empty_rows := chk_empty_rows cfg;
     chk_title_case := chk_title_case cfg;
     chk_trim := chk_trim cfg;
     email_col := email_col cfg;
     chk_validate_email := false |}.

(** The first four steps, which cannot fail. *)
Definition structure_and_formatting (cfg : config) (t : DataFrame) : DataFrame :=
  let t := if chk_duplicates cfg then drop_duplicates t else t in
  let t := if chk_empty_rows cfg then dropna_all t else t in
  let t := if chk_trim cfg then trim_whitespace t else t in
  if chk_title_case cfg then title_case_names t else t.

Definition no_steps : config :=
  {| chk_duplicates := false; chk_empty_rows := false; chk_title_case := false;
     chk_trim := false; email_col := "None"; chk_validate_email := false |}.

Definition only_remove_duplicates : config :=
  {| chk_duplicates := true; chk_empty_rows := false; chk_title_case := false;
     chk_trim := false; email_col := "None"; chk_validate_email := false |}.


Definition only_email_check (col : string) : config :=
  {| chk_duplicates := false; chk_empty_rows := false; chk_title_case := false;
     chk_trim := false; email_col := col; chk_validate_email := true |}.

Definition email_check_without_column : config :=
  {| chk_duplicates := true; chk_empty_rows := false; chk_title_case := false;
     chk_trim := true; email_col := "None"; chk_validate_email := true |}.

(** The check boxes as they are when the page opens. *)
Definition default_config : config :=
  {| chk_duplicates := true; chk_empty_rows := false; chk_title_case := false;
     chk_trim := true; email_col := "None"; chk_validate_email := false |}.

(** ** Tables *)

(** The row labels [read_csv] assigns. *)
Definition range_index (n : nat) : list Z := map Z.of_nat (seq 0 n).

Definition text_column (n : string) (vals : list cell) : Series :=
  {| name := n; dtype_of := DObject; values := vals |}.

Definition number_column (n : string) (vals : list cell) : Series :=
  {| name := n; dtype_of := DNumeric; values := vals |}.

(** Five rows and two columns: ten cells, two of them missing, and the
    third row repeats the first. *)
Definition ten_cells : DataFrame :=
  {| index := range_index 5;
     columns :=
       [ text_column "city" [CStr "Pune"; CStr "Oslo"; CStr "Pune"; CNaN; CStr "Lima"];
         text_column "team" [CStr "red"; CStr "blue"; CStr "red"; CStr "blue"; CNaN] ] |}.

(** A file with a header line only. *)
Definition header_only : DataFrame :=
  {| index := [];
     columns := [ text_column "name" []; text_column "email" [] ] |}.

(** Six rows of two empty fields each. *)
Definition six_blank_rows : DataFrame :=
  {| index := range_index 6;
     columns := [ number_column "a" (repeat CNaN 6);
                  number_column "b" (repeat CNaN 6) ] |}.

Definition people : DataFrame :=
  {| index := range_index 3;
     columns :=
       [ text_column "Full Name" [CStr "jOHN doe"; CNaN; CStr "o'neil"];
         text_column "City" [CStr "nEW york"; CStr "oslo"; CNaN];
         number_column "Name Count" [CInt 1; CInt 2; CInt 3] ] |}.


Definition subscribers : DataFrame :=
  {| index := range_index 4;
     columns :=
       [ number_column "id" [CInt 1; CInt 2; CInt 3; CInt 4];
         text_column "email" [CStr "a@b.com"; CStr "bad-email"; CNaN; CStr "x@y.co"] ] |}.

Definition subscribers_valid : DataFrame :=
  {| index := [0; 3];
     columns :=
       [ number_column "id" [CInt 1; CInt 4];
         text_column "email" [CStr "a@b.com"; CStr "x@y.co"] ] |}.

(** The line feed, as a text. *)
Definition LF : string := String "010" "".

Definition with_line_feed : DataFrame :=
  {| index := range_index 2;
     columns :=
       [ text_column "email" [CStr ("a@b.com" ++ LF); CStr ("a@b.com" ++ LF ++ LF)];
         number_column "id" [CInt 7; CInt 8] ] |}.

Definition with_line_feed_kept : DataFrame :=
  {| index := [0];
     columns :=
       [ text_column "email" [CStr ("a@b.com" ++ LF)];
         number_column "id" [CInt 7] ] |}.

Definition contacts : DataFrame :=
  {| index := range_index 2;
     columns :=
       [ text_column "First Name" [CStr "Ada"; CStr "Alan"];
         text_column "Email Address" [CStr "ada@math.org"; CStr "alan@cs.org"] ] |}.

Definition contacts_renamed : DataFrame :=
  {| index := range_index 2;
     columns :=
       [ text_column "first_name" [CStr "Ada"; CStr "Alan"];
         text_column "email_address" [CStr "ada@math.org"; CStr "alan@cs.org"] ] |}.

(** Names and cities written with letters and spaces only. *)
Definition names_and_cities : DataFrame :=
  {| index := range_index 2;
     columns :=
       [ text_column "Full Name" [CStr "jOHN doe"; CNaN];
         text_column "City" [CStr "nEW york"; CStr "oslo"] ] |}.

(** Two rows that differ by a trailing space only. *)
Definition padded_names : DataFrame :=
  {| index := range_index 2;
     columns := [ text_column "name" [CStr "Ann"; CStr "Ann "] ] |}.

(** ** Sessions *)

(** The session entries the job leaves behind. *)
Definition after_job (l : loc) (ss : gmap string pyval) : gmap string pyval :=
  <["cleaning_complete" := VBool true]> (<["cleaned_df" := VFrame l]> ss).

(** A session whose cleaned frame, object 1, is [contacts]. *)
Definition session_with_contacts : world :=
  {| heap := {[ 1%positive := contacts ]};
     session_state := {[ "cleaned_df" := VFrame 1%positive ]} |}.

Definition session_after_export : world :=
  {| heap := {[ 1%positive := contacts_renamed ]};
     session_state := {[ "cleaned_df" := VFrame 1%positive ]} |}.

(** A session that has already seen the file "contacts.csv". *)
Definition session_of_contacts_csv : world :=
  {| heap := {[ 1%positive := contacts ]};
     session_state := {[ "cleaned_df" := VFrame 1%positive;
                         "last_file" := VStr "contacts.csv" ]} |}.

(** Upload, export for Salesforce, then Deep Clean with the e-mail column
    picked from the selector, which lists the columns of the session's
    frame. *)
Definition clean_after_export : M loc :=
  _ ← load "contacts.csv" contacts;
  _ ← export_tools "Salesforce Compatible";
  df ← load "contacts.csv" contacts;
  run_cleaning_job (only_email_check "email_address") df.

(** ** The score, by its parts *)

(** [(count / total) * 100 if total > 0 else 0] *)
Definition penalty (count total : Z) : Float64.float :=
  if total >? 0
  then Float64.mul (Float64.div (Float64.of_int count) (Float64.of_int total))
                   (Float64.of_int 100)
  else Float64.of_int 0.

(** [100 - (missing_penalty * 0.7) - (duplicate_penalty * 0.3)] *)
Definition weighted_score (missing_penalty duplicate_penalty : Float64.float)
  : Float64.float :=
  Float64.sub
    (Float64.sub (Float64.of_int 100) (Float64.mul missing_penalty Float64.lit_0_7))
    (Float64.mul duplicate_penalty Float64.lit_0_3).

(** [max(0, int(score))] *)
Definition clamp_int (x : Float64.float) : result Z :=
  match x with
  | S754_nan => Raise ValueError
  | S754_infinity _ => Raise OverflowError
  | _ => match Float64.to_int x with
         | Some n => Ok (Z.max 0 n)
         | None => Raise ValueError
         end
  end.

Definition score_of_counts (total_cells total_missing duplicate_rows n_rows : Z)
  : result Z :=
  clamp_int (weighted_score (penalty total_missing total_cells)
                            (penalty duplicate_rows n_rows)).

(** ** Title case *)


(** ** Texts *)

(** How often the character [c] occurs in [s]. *)
Fixpoint count_char (c : ascii) (s : string) : nat :=
  match s with
  | EmptyString => O
  | String c' s' => ((if Ascii.eqb c' c then 1 else 0) + count_char c s')%nat
  end.

(** [s] does not start with whitespace. *)
Definition no_leading_space (s : string) : Prop :=
  match s with
  | EmptyString => True
  | String c _ => PyStr.is_space c = false
  end.

(** [s] does not end with whitespace. *)
Fixpoint no_trailing_space (s : string) : Prop :=
  match s with
  | EmptyString => True
  | String c EmptyString => PyStr.is_space c = false
  | String _ s' => no_trailing_space s'
  end.

(** A text cell that is stripped; any other cell. *)
Definition stripped_cell (c : cell) : Prop :=
  match c with
  | CStr s => no_leading_space s /\ no_trailing_space s
  | _ => True
  end.

(** Every text cell is made of letters and whitespace only. *)
Definition plain_cell (c : cell) : Prop :=
  match c with
  | CStr s => forallb (fun c => PyStr.is_alpha c || PyStr.is_space c)
                      (list_ascii_of_string s) = true
  | _ => True
  end.

(** ** ASCII texts *)

(** Every character of [s] is an ASCII character.  On such a text
    [str.lower], [str.title], [str.strip] and the class [\D] are the
    functions of [PyStr] and [App]; on any other text Python follows the
    Unicode tables, which the byte strings used here do not carry. *)
Definition is_ascii (s : string) : bool :=
  forallb (fun c => (PyStr.code c <? 128)%N) (list_ascii_of_string s).

(** A cell of a text column: an ASCII text or a missing value. *)
Definition ascii_text (v : cell) : bool :=
  match v with
  | CNaN => true
  | CStr s => is_ascii s
  | CInt _ => false
  end.

(** Every [object] column holds ASCII texts and missing values only.  On an
    [object] column whose values are all of another kind the accessor
    [.str] raises [AttributeError], which [str_map] does not model; such
    tables are left out wherever a text step is described. *)
Definition ascii_text_columns (t : DataFrame) : bool :=
  forallb (fun c => negb (is_object c) || forallb ascii_text (values c))
          (columns t).

(** Every column name is an ASCII text. *)
Definition ascii_names (t : DataFrame) : bool :=
  forallb (fun c => is_ascii (name c)) (columns t).

(** Where [cfg] runs a text step (trim or title case), the text columns of
    [t] hold ASCII texts and missing values only. *)
Definition text_steps_on_ascii (cfg : config) (t : DataFrame) : bool :=
  negb (chk_trim cfg || chk_title_case cfg) || ascii_text_columns t.

(** ** Letters, digits and the e-mail pattern, spelled out *)













(** ** Bounds on binary64 values *)

(** The magnitude of [x] is at most [H]; such an [x] is zero or finite with
    a non-positive exponent. *)
Definition magnitude (H : Z) (x : Float64.float) : Prop :=
  match x with
  | S754_zero _ => True
  | S754_finite _ m e => e <= 0 /\ Zpos m <= H * 2 ^ (- e)
  | _ => False
  end.

Definition nonneg (x : Float64.float) : Prop :=
  match x with
  | S754_zero _ => True
  | S754_finite s _ _ => s = false
  | _ => False
  end.

Definition has_sign (sx : bool) (x : Float64.float) : Prop :=
  match x with
  | S754_zero _ => True
  | S754_finite s _ _ => s = sx
  | _ => False
  end.

(** [x] lies between 0 and [H]. *)
Definition bounded (H : Z) (x : Float64.float) : Prop :=
  magnitude H x /\ nonneg x.

(** A shifted mantissa stays at or below [X], and strictly below when bits
    were lost. *)
Definition shr_inv (X : Z) (r : shr_record) : Prop :=
  0 <= shr_m r /\ shr_m r <= X /\ (shr_r r || shr_s r = true -> shr_m r < X).

(* ================================================================== *)
(** * Properties *)

#[local] Arguments String.append !s1 s2 : simpl nomatch.

(** ** The steps of the job *)

Lemma clean_steps (cfg : config) (t : DataFrame) :
  clean cfg t =
    if email_step_runs cfg
    then filter_emails (email_col cfg) (structure_and_formatting cfg t)
    else Ok (structure_and_formatting cfg t).
Proof. reflexivity. Qed.

Lemma clean_without_email_check (cfg : config) (t : DataFrame) :
  clean (without_email_check cfg) t = Ok (structure_and_formatting cfg t).
Proof.
  rewrite clean_steps. unfold email_step_runs. simpl.
  now rewrite andb_false_r.
Qed.

(** ** C6: with every step disabled the job returns its input *)

(** C6. For every table and every configuration whose five check boxes are
    all off, the cleaning pipeline returns a table equal to the input. *)
Theorem clean_all_disabled (cfg : config) (t : DataFrame) :
  all_disabled cfg -> clean cfg t = Ok t.
Proof.
  intros (Hd & He & Ht & Hc & Hv).
  rewrite clean_steps. unfold email_step_runs, structure_and_formatting.
  rewrite Hd, He, Ht, Hc, Hv. now rewrite andb_false_r.
Qed.

(** ** C8: the e-mail step without a column *)

(** C8. When the e-mail check box is on but the column selector holds
    "None", the e-mail step does nothing: the job succeeds and returns the
    table the other steps produce, the same as with the check box off. *)
Theorem clean_email_column_none (cfg : config) (t : DataFrame) :
  email_col cfg = "None" -> chk_validate_email cfg = true ->
  email_step_runs cfg = false
  /\ clean cfg t = Ok (structure_and_formatting cfg t)
  /\ clean cfg t = clean (without_email_check cfg) t.
Proof.
  intros Hcol Hchk.
  assert (Hskip : email_step_runs cfg = false)
    by (unfold email_step_runs; now rewrite Hcol).
  rewrite clean_without_email_check, clean_steps, Hskip. auto.
Qed.

Lemma clean_all_disabled_witness : clean no_steps ten_cells = Ok ten_cells.
Proof.
  apply clean_all_disabled. unfold all_disabled. simpl. auto.
Defined.

Lemma clean_email_column_none_witness :
  clean email_check_without_column ten_cells
  = Ok (structure_and_formatting email_check_without_column ten_cells)
  /\ clean email_check_without_column ten_cells
     = clean (without_email_check email_check_without_column) ten_cells.
Proof.
  destruct (clean_email_column_none email_check_without_column ten_cells
              eq_refl eq_refl) as (_ & H1 & H2).
  split; assumption.
Defined.

(** ** C9: the export block renames columns and nothing else *)

Lemma set_columns_names (f : Series -> string) (t : DataFrame) :
  map name (columns (set_columns (map f (columns t)) t)) = map f (columns t).
Proof.
  unfold set_columns. simpl. induction (columns t) as [|c cs IH]; simpl.
  - reflexivity.
  - now rewrite IH.
Qed.





(** Changing the case of an ASCII character gives an ASCII character. *)
Lemma ascii_case (c : ascii) :
  (PyStr.code c <? 128)%N = true ->
  (PyStr.code (PyStr.lower_char c) <? 128)%N = true
  /\ (PyStr.code (PyStr.upper_char c) <? 128)%N = true.
Proof.
  destruct c as [[] [] [] [] [] [] [] []]; vm_compute; auto.
Qed.

Lemma is_ascii_map_chars (f : ascii -> ascii) (s : string) :
  (forall c, (PyStr.code c <? 128)%N = true -> (PyStr.code (f c) <? 128)%N = true) ->
  is_ascii s = true -> is_ascii (PyStr.map_chars f s) = true.
Proof.
  intros Hf. unfold is_ascii. induction s as [|c s IH]; [reflexivity|].
  cbn [PyStr.map_chars list_ascii_of_string forallb].
  intros H. apply andb_prop in H as [Hc Hs].
  now rewrite (Hf c Hc), (IH Hs).
Qed.

Lemma snake_case_ascii (s : string) :
  is_ascii s = true -> is_ascii (snake_case s) = true.
Proof.
  intros H. unfold snake_case, PyStr.replace, PyStr.lower.
  apply is_ascii_map_chars.
  - intros c Hc. destruct (Ascii.eqb c " "); [reflexivity|exact Hc].
  - apply is_ascii_map_chars; [|exact H]. intros c Hc. now apply ascii_case.
Qed.



(** ** The job and the export block as programs over objects *)

Lemma when_update (b : bool) (l : loc) (f : DataFrame -> DataFrame)
    (h : gmap loc DataFrame) (ss : gmap string pyval) (x : DataFrame) :
  when b (update l f) {| heap := <[l := x]> h; session_state := ss |}
  = Ok (tt, {| heap := <[l := if b then f x else x]> h; session_state := ss |}).
Proof.
  destruct b; simpl.
  - unfold update. simpl. rewrite lookup_insert_eq, insert_insert_eq. reflexivity.
  - reflexivity.
Qed.

(** The job copies the uploaded frame into a new object, works on the copy
    and stores a reference to the outcome; the table stored is [clean]. *)
Lemma run_cleaning_job_clean (cfg : config) (df : loc) (w : world) (t : DataFrame) :
  heap w !! df = Some t ->
  let l1 := fresh (dom (heap w)) in
  let h1 := <[l1 := structure_and_formatting cfg t]> (heap w) in
  let l2 := fresh (dom h1) in
  run_cleaning_job cfg df w =
    if email_step_runs cfg
    then match clean cfg t with
         | Ok t' => Ok (l2, {| heap := <[l2 := t']> h1;
                               session_state := after_job l2 (session_state w) |})
         | Raise e => Raise e
         end
    else Ok (l1, {| heap := h1;
                    session_state := after_job l1 (session_state w) |}).
Proof.
  intros Ht l1 h1 l2. rewrite clean_steps.
  unfold run_cleaning_job, mbind, M_bind.
  unfold deref at 1. rewrite Ht.
  unfold new_obj at 1. fold l1.
  rewrite when_update, when_update, when_update, when_update.
  fold (structure_and_formatting cfg t). fold h1.
  destruct (email_step_runs cfg).
  - unfold deref. cbn [heap]. unfold h1 at 1. rewrite lookup_insert_eq.
    destruct (filter_emails (email_col cfg) (structure_and_formatting cfg t));
      reflexivity.
  - reflexivity.
Qed.

(** The job leaves every object that existed before it as it was, and the
    frame it returns is a new object. *)
Lemma run_cleaning_job_frame (cfg : config) (df : loc) (w w' : world) (out : loc) :
  run_cleaning_job cfg df w = Ok (out, w') ->
  heap w !! out = None
  /\ forall l : loc, is_Some (heap w !! l) -> heap w' !! l = heap w !! l.
Proof.
  intros Hrun.
  destruct (heap w !! df) as [t|] eqn:Ht.
  2:{ unfold run_cleaning_job, mbind, M_bind, deref in Hrun.
      rewrite Ht in Hrun. discriminate. }
  rewrite (run_cleaning_job_clean cfg df w t Ht) in Hrun.
  set (l1 := fresh (dom (heap w))) in *.
  set (h1 := <[l1 := structure_and_formatting cfg t]> (heap w)) in *.
  set (l2 := fresh (dom h1)) in *.
  assert (Hl1 : heap w !! l1 = None)
    by (apply not_elem_of_dom; apply is_fresh).
  assert (Hl2 : h1 !! l2 = None)
    by (apply not_elem_of_dom; apply is_fresh).
  assert (Hl2' : heap w !! l2 = None).
  { destruct (decide (l1 = l2)) as [<-|Hne]; [exact Hl1|].
    unfold h1 in Hl2. now rewrite lookup_insert_ne in Hl2. }
  assert (Hkeep : forall l, is_Some (heap w !! l) -> h1 !! l = heap w !! l).
  { intros l [x Hx]. unfold h1. rewrite lookup_insert_ne; [reflexivity|].
    intros ->. congruence. }
  destruct (email_step_runs cfg).
  - destruct (clean cfg t); [|discriminate].
    injection Hrun as <- <-. split; [exact Hl2'|].
    intros l Hl. cbn [heap]. rewrite lookup_insert_ne.
    + now apply Hkeep.
    + intros ->. destruct Hl as [x Hx]. congruence.
  - injection Hrun as <- <-. split; [exact Hl1|].
    intros l Hl. cbn [heap]. now apply Hkeep.
Qed.

(** The export block hands out the session's frame itself; for the
    Salesforce target that frame is renamed where it is. *)
Lemma export_tools_in_place (platform : string) (w : world) (l : loc) (t : DataFrame) :
  session_state w !! "cleaned_df" = Some (VFrame l) ->
  heap w !! l = Some t ->
  export_tools platform w
  = Ok (l, {| heap := if bool_decide (platform = "Salesforce Compatible")
                      then <[l := format_columns platform t]> (heap w)
                      else heap w;
              session_state := session_state w |}).
Proof.
  intros Hs Ht.
  unfold export_tools, session_cleaned_df, session_get, mbind, M_bind.
  rewrite Hs. unfold mret, M_ret. unfold format_columns.
  destruct (bool_decide (platform = "Salesforce Compatible")); simpl.
  - unfold update. rewrite Ht. reflexivity.
  - destruct w; reflexivity.
Qed.

(** ** C2: which operations touch the caller's frame *)

(** C2. Exporting for "Salesforce Compatible" returns the very object it was
    given (object 1, the session's frame), and afterwards that object's
    column names are "first_name" and "email_address": the caller's table
    has been renamed in place.  A later export for "Universal CSV" therefore
    hands out the renamed columns too. *)
Theorem export_tools_renames_callers_frame :
  heap session_with_contacts !! 1%positive = Some contacts
  /\ map name (columns contacts) = ["First Name"; "Email Address"]
  /\ export_tools "Salesforce Compatible" session_with_contacts
     = Ok (1%positive, session_after_export)
  /\ heap session_after_export !! 1%positive = Some contacts_renamed
  /\ map name (columns contacts_renamed) = ["first_name"; "email_address"]
  /\ export_tools "Universal CSV" session_after_export
     = Ok (1%positive, session_after_export).
Proof.
  split; [reflexivity|]. split; [reflexivity|]. split.
  - rewrite (export_tools_in_place _ session_with_contacts 1%positive contacts)
      by reflexivity.
    rewrite bool_decide_eq_true_2 by reflexivity.
    unfold session_after_export, session_with_contacts. cbn [heap session_state].
    rewrite insert_singleton_eq. reflexivity.
  - split; [reflexivity|]. split; [reflexivity|].
    rewrite (export_tools_in_place _ session_after_export 1%positive contacts_renamed)
      by reflexivity.
    rewrite bool_decide_eq_false_2 by discriminate. reflexivity.
Qed.

Lemma clean_after_export_raises :
  clean_after_export {| heap := ∅; session_state := ∅ |}
  = Raise (KeyError "email_address").
Proof. vm_compute. reflexivity. Qed.

(** ** The score as a function of the four counts *)

Lemma calculate_quality_score_counts (df : DataFrame) :
  calculate_quality_score df
  = score_of_counts (Z.of_nat (size df)) (Z.of_nat (isnull_sum_sum df))
                    (Z.of_nat (count_true (duplicated df))) (Z.of_nat (len df)).
Proof. reflexivity. Qed.

(** ** C5: a table without rows *)

Lemma isnull_sum_sum_no_rows (df : DataFrame) :
  aligned df -> len df = 0%nat -> isnull_sum_sum df = 0%nat.
Proof.
  unfold aligned, isnull_sum_sum, isnull_sum. intros Hal Hlen.
  rewrite Hlen in Hal. induction Hal as [|c cs Hc _ IH]; simpl.
  - reflexivity.
  - rewrite IH. destruct (values c); [reflexivity|discriminate].
Qed.

(** C5. For every table with zero rows the audit reports a score of 100,
    no missing cell and no duplicate row: both penalties take their guarded
    branch and are 0. *)
Theorem health_audit_no_rows (df : DataFrame) :
  aligned df -> len df = 0%nat ->
  calculate_quality_score df = Ok 100
  /\ score (health_audit df) = Ok 100
  /\ missing_values (health_audit df) = 0%nat
  /\ duplicates (health_audit df) = 0%nat
  /\ penalty (Z.of_nat (isnull_sum_sum df)) (Z.of_nat (size df)) = S754_zero false
  /\ penalty (Z.of_nat (count_true (duplicated df))) (Z.of_nat (len df))
     = S754_zero false.
Proof.
  intros Hal Hlen.
  assert (Hsize : size df = 0%nat) by (unfold size; now rewrite Hlen).
  assert (Hdup : duplicated df = [])
    by (unfold duplicated, empty; now rewrite Hlen).
  assert (Hscore : calculate_quality_score df = Ok 100).
  { rewrite calculate_quality_score_counts, Hsize, Hlen. reflexivity. }
  unfold health_audit. cbn [score missing_values duplicates].
  rewrite Hscore, Hdup, Hsize, Hlen, (isnull_sum_sum_no_rows df Hal Hlen).
  repeat split.
Qed.

Lemma health_audit_no_rows_witness :
  calculate_quality_score header_only = Ok 100
  /\ missing_values (health_audit header_only) = 0%nat
  /\ duplicates (health_audit header_only) = 0%nat.
Proof.
  assert (Hal : aligned header_only) by (repeat constructor).
  destruct (health_audit_no_rows header_only Hal eq_refl)
    as (H1 & _ & H3 & H4 & _).
  auto.
Defined.

(** ** C3: title case on the name-like text columns *)



Lemma alpha_not_space (c : ascii) :
  PyStr.is_alpha c = true -> PyStr.is_space c = false.
Proof.
  destruct c as [[] [] [] [] [] [] [] []]; vm_compute; congruence.
Qed.

Lemma title_from_words_from (ws : bool) (s : string) :
  forallb (fun c => PyStr.is_alpha c || PyStr.is_space c) (list_ascii_of_string s)
  = true ->
  PyStr.title_from (negb ws) s = Spec.words_from ws s.
Proof.
  revert ws. induction s as [|c s IH]; intros ws H; simpl in *.
  - reflexivity.
  - apply andb_prop in H as [Hc Hs].
    assert (Hflag : PyStr.is_alpha c = negb (PyStr.is_space c)).
    { destruct (PyStr.is_alpha c) eqn:Ha.
      - now rewrite (alpha_not_space c Ha).
      - simpl in Hc. now rewrite Hc. }
    rewrite Hflag, (IH _ Hs). destruct ws; reflexivity.
Qed.

(** On texts made of letters and whitespace only, [str.title] is title case
    by whitespace-separated words. *)
Lemma title_words_agree (s : string) :
  forallb (fun c => PyStr.is_alpha c || PyStr.is_space c) (list_ascii_of_string s)
  = true ->
  PyStr.title s = Spec.title_words s.
Proof. apply (title_from_words_from true). Qed.












(** ** The e-mail pattern *)

Lemma append_assoc (a b c : string) : (a ++ b) ++ c = a ++ (b ++ c).
Proof. induction a as [|x a IH]; simpl; [reflexivity|now rewrite IH]. Qed.

Lemma append_empty_r (a : string) : a ++ "" = a.
Proof. induction a as [|x a IH]; simpl; [reflexivity|now rewrite IH]. Qed.

Lemma star_iff (cls : ascii -> bool) (k : string -> bool) (s : string) :
  Re.star cls k s = true
  <-> exists a b, s = a ++ b /\ Spec.all_in cls a /\ k b = true.
Proof.
  induction s as [|c s IH]; cbn [Re.star]; rewrite orb_true_iff.
  - split.
    + intros [H|H]; [|discriminate]. exists "", "".
      split; [reflexivity|]. split; [reflexivity|exact H].
    + intros (a & b & Hs & _ & Hk). left.
      destruct a; [|discriminate]. simpl in Hs. now subst b.
  - rewrite andb_true_iff, IH. split.
    + intros [H|[Hc (a & b & Hs & Ha & Hk)]].
      * exists "", (String c s).
        split; [reflexivity|]. split; [reflexivity|exact H].
      * exists (String c a), b. subst s.
        split; [reflexivity|]. split; [|exact Hk].
        unfold Spec.all_in in *. simpl. now rewrite Hc.
    + intros (a & b & Hs & Ha & Hk). destruct a as [|c' a]; simpl in Hs.
      * left. now subst b.
      * right. injection Hs as -> ->. unfold Spec.all_in in Ha. simpl in Ha.
        apply andb_prop in Ha as [Hc Ha]. split; [exact Hc|].
        exists a, b. split; [reflexivity|]. split; assumption.
Qed.

Lemma at_least_iff (n : nat) (cls : ascii -> bool) (k : string -> bool) (s : string) :
  Re.exactly n cls (Re.star cls k) s = true
  <-> exists a b, s = a ++ b /\ (n <= String.length a)%nat
                  /\ Spec.all_in cls a /\ k b = true.
Proof.
  revert s. induction n as [|n IH]; intros s; cbn [Re.exactly].
  - rewrite star_iff. split; intros (a & b & H1 & H2); exists a, b.
    + split; [exact H1|]. split; [lia|exact H2].
    + tauto.
  - destruct s as [|c s].
    + split; [discriminate|]. intros (a & b & Hs & Hn & _).
      destruct a; simpl in *; [lia|discriminate].
    + rewrite andb_true_iff, IH. split.
      * intros [Hc (a & b & Hs & Hn & Ha & Hk)].
        exists (String c a), b. subst s. simpl.
        split; [reflexivity|]. split; [lia|]. split; [|exact Hk].
        unfold Spec.all_in in *. simpl. now rewrite Hc.
      * intros (a & b & Hs & Hn & Ha & Hk). destruct a as [|c' a]; simpl in *.
        { lia. }
        injection Hs as -> ->. unfold Spec.all_in in Ha. simpl in Ha.
        apply andb_prop in Ha as [Hc Ha]. split; [exact Hc|].
        exists a, b. split; [reflexivity|]. split; [lia|]. split; assumption.
Qed.

Lemma nonempty_length (a : string) : (1 <= String.length a)%nat <-> a <> "".
Proof. destruct a; simpl; split; intros; try lia; congruence. Qed.

Lemma at_end_iff (s : string) :
  Re.at_end s = true <-> s = "" \/ s = String "010" "".
Proof.
  destruct s as [|c [|c' s]]; simpl.
  - tauto.
  - rewrite Ascii.eqb_eq. split.
    + intros ->. now right.
    + intros [H|H]; congruence.
  - split; [discriminate|]. intros [H|H]; discriminate.
Qed.

Lemma matches_caret (p : Re.pattern) (s : string) :
  Re.matches (Re.Caret :: p) true s = Re.matches p true s.
Proof. reflexivity. Qed.

Lemma matches_lit (c : ascii) (p : Re.pattern) (b : bool) (s : string) :
  Re.matches (Re.Lit c :: p) b s = true
  <-> exists r, s = String c r /\ Re.matches p false r = true.
Proof.
  cbn [Re.matches]. destruct s as [|c' s].
  - split; [discriminate|]. intros (r & H & _). discriminate.
  - rewrite andb_true_iff, Ascii.eqb_eq. split.
    + intros [-> H]. eauto.
    + intros (r & H & Hr). injection H as -> ->. auto.
Qed.

Lemma matches_plus (cls : ascii -> bool) (p : Re.pattern) (b : bool) (s : string) :
  Re.matches (Re.Plus cls :: p) b s = true
  <-> exists a r, s = a ++ r /\ a <> "" /\ Spec.all_in cls a
                  /\ Re.matches p false r = true.
Proof.
  cbn [Re.matches]. rewrite at_least_iff.
  split; intros (a & r & H1 & H2 & H3); exists a, r;
    (split; [exact H1|]); (split; [now apply nonempty_length|exact H3]).
Qed.

Lemma matches_two_or_more (cls : ascii -> bool) (p : Re.pattern) (b : bool)
    (s : string) :
  Re.matches (Re.AtLeast 2 cls :: p) b s = true
  <-> exists a r, s = a ++ r /\ (2 <= String.length a)%nat /\ Spec.all_in cls a
                  /\ Re.matches p false r = true.
Proof. cbn [Re.matches]. apply at_least_iff. Qed.

Lemma matches_dollar (b : bool) (s : string) :
  Re.matches [Re.Dollar] b s = true <-> s = "" \/ s = String "010" "".
Proof. cbn [Re.matches]. rewrite andb_true_r. apply at_end_iff. Qed.

(** The texts the pattern accepts: local part, "@", domain, ".", two or
    more letters, and then the end of the text or one final line feed. *)
Lemma re_match_pattern_iff (s : string) :
  Re.re_match pattern s = true
  <-> exists l d t tail : string,
        s = l ++ "@" ++ d ++ "." ++ t ++ tail
        /\ l <> "" /\ Spec.all_in local_class l
        /\ d <> "" /\ Spec.all_in domain_class d
        /\ (2 <= String.length t)%nat /\ Spec.all_in PyStr.is_alpha t
        /\ (tail = "" \/ tail = String "010" "").
Proof.
  unfold Re.re_match, pattern. rewrite matches_caret. split.
  - intros H.
    apply matches_plus in H as (l & r1 & Hs & Hl & Hal & H).
    apply matches_lit in H as (r2 & Hr1 & H).
    apply matches_plus in H as (d & r3 & Hr2 & Hd & Had & H).
    apply matches_lit in H as (r4 & Hr3 & H).
    apply matches_two_or_more in H as (t & tail & Hr4 & Ht & Hat & H).
    apply matches_dollar in H.
    exists l, d, t, tail. subst s r1 r2 r3 r4. simpl. tauto.
  - intros (l & d & t & tail & Hs & Hl & Hal & Hd & Had & Ht & Hat & Htail).
    apply matches_plus. exists l, ("@" ++ d ++ "." ++ t ++ tail).
    split; [exact Hs|]. split; [exact Hl|]. split; [exact Hal|].
    apply matches_lit. exists (d ++ "." ++ t ++ tail). split; [reflexivity|].
    apply matches_plus. exists d, ("." ++ t ++ tail).
    split; [reflexivity|]. split; [exact Hd|]. split; [exact Had|].
    apply matches_lit. exists (t ++ tail). split; [reflexivity|].
    apply matches_two_or_more. exists t, tail.
    split; [reflexivity|]. split; [exact Ht|]. split; [exact Hat|].
    now apply matches_dollar.
Qed.

(** Either the whole text has the shape of an address, or it is such a text
    followed by one line feed. *)
Lemma re_match_pattern_shape (s : string) :
  Re.re_match pattern s = true
  <-> Spec.email_shape s
      \/ exists s0, Spec.email_shape s0 /\ s = s0 ++ String "010" "".
Proof.
  rewrite re_match_pattern_iff. unfold Spec.email_shape. split.
  - intros (l & d & t & tail & Hs & Hl & Hal & Hd & Had & Ht & Hat & [->| ->]).
    + left. exists l, d, t. rewrite append_empty_r in Hs. tauto.
    + right. exists (l ++ "@" ++ d ++ "." ++ t). split.
      * exists l, d, t. tauto.
      * rewrite Hs. rewrite !append_assoc. reflexivity.
  - intros [(l & d & t & Hs & H)|(s0 & (l & d & t & Hs0 & H) & Hs)].
    + exists l, d, t, "". rewrite append_empty_r. tauto.
    + exists l, d, t, (String "010" ""). split; [|tauto].
      rewrite Hs, Hs0. rewrite !append_assoc. reflexivity.
Qed.

(** ** Rows of a frame and selection by a mask *)

Lemma bool_index_length {A} (mask : list bool) (l : list A) :
  List.length l = List.length mask ->
  List.length (bool_index mask l) = count_true mask.
Proof.
  revert l. induction mask as [|b mask IH]; intros [|x l] H; simpl in *;
    try reflexivity; try discriminate.
  injection H as H. destruct b; simpl; now rewrite IH.
Qed.

Lemma bool_index_same_length {A B} (mask : list bool) (l1 : list A) (l2 : list B) :
  List.length l1 = List.length l2 ->
  List.length (bool_index mask l1) = List.length (bool_index mask l2).
Proof.
  revert l1 l2. induction mask as [|b mask IH]; intros [|x l1] [|y l2] H;
    simpl in *; try reflexivity; try discriminate.
  injection H as H. destruct b; simpl; now rewrite (IH l1 l2 H).
Qed.

Lemma bool_index_map_filter {A} (f : A -> bool) (l : list A) :
  bool_index (map f l) l = List.filter f l.
Proof.
  induction l as [|x l IH]; simpl; [reflexivity|].
  destruct (f x); now rewrite IH.
Qed.

Lemma bool_index_all_true {A} (mask : list bool) (l : list A) :
  Forall (fun b => b = true) mask -> List.length mask = List.length l ->
  bool_index mask l = l.
Proof.
  intros Hall. revert l. induction Hall as [|b mask Hb _ IH]; intros [|x l] H;
    simpl in *; try reflexivity; try discriminate.
  injection H as H. subst b. now rewrite IH.
Qed.

Lemma iloc_rows_length (n : nat) (cols : list (list cell)) :
  List.length (iloc_rows n cols) = n.
Proof.
  revert cols. induction n as [|n IH]; intros cols; simpl; [reflexivity|].
  now rewrite IH.
Qed.

Lemma rows_length (df : DataFrame) : List.length (rows df) = len df.
Proof. apply iloc_rows_length. Qed.

Lemma map_tl_length (n : nat) (cols : list (list cell)) :
  Forall (fun l => List.length l = S n) cols ->
  Forall (fun l => List.length l = n) (map (@tl cell) cols).
Proof.
  induction 1 as [|l cols Hl _ IH]; simpl; constructor; [|exact IH].
  destruct l; simpl in *; [discriminate|congruence].
Qed.

Lemma iloc_rows_bool_index (mask : list bool) (cols : list (list cell)) :
  Forall (fun l => List.length l = List.length mask) cols ->
  iloc_rows (count_true mask) (map (bool_index mask) cols)
  = bool_index mask (iloc_rows (List.length mask) cols).
Proof.
  revert cols. induction mask as [|b mask IH]; intros cols Hcols.
  - reflexivity.
  - assert (Htl : map (bool_index mask) (map (@tl cell) cols)
                  = map (@tl cell) (map (bool_index (true :: mask)) cols)).
    { rewrite !map_map. apply map_ext_Forall.
      eapply Forall_impl; [|exact Hcols]. intros [|x l] H; [discriminate|].
      reflexivity. }
    assert (Hhd : map (hd CNaN) (map (bool_index (true :: mask)) cols)
                  = map (hd CNaN) cols).
    { rewrite map_map. apply map_ext_Forall.
      eapply Forall_impl; [|exact Hcols]. intros [|x l] H; [discriminate|].
      reflexivity. }
    assert (Hskip : map (bool_index (false :: mask)) cols
                    = map (bool_index mask) (map (@tl cell) cols)).
    { rewrite map_map. apply map_ext_Forall.
      eapply Forall_impl; [|exact Hcols]. intros [|x l] H; [discriminate|].
      reflexivity. }
    specialize (IH (map (@tl cell) cols) (map_tl_length _ _ Hcols)).
    destruct b.
    + change (count_true (true :: mask)) with (S (count_true mask)).
      change (List.length (true :: mask)) with (S (List.length mask)).
      cbn [iloc_rows]. rewrite Hhd, <- Htl, IH. reflexivity.
    + change (count_true (false :: mask)) with (count_true mask).
      change (List.length (false :: mask)) with (S (List.length mask)).
      cbn [iloc_rows]. rewrite Hskip, IH. reflexivity.
Qed.

Lemma aligned_columns (df : DataFrame) :
  aligned df ->
  Forall (fun l => List.length l = len df) (map values (columns df)).
Proof. unfold aligned. intros H. now apply Forall_map. Qed.

Lemma select_rows_values (mask : list bool) (df : DataFrame) :
  map values (columns (select_rows mask df))
  = map (bool_index mask) (map values (columns df)).
Proof. unfold select_rows. simpl. rewrite !map_map. reflexivity. Qed.

Lemma rows_select_rows (mask : list bool) (df : DataFrame) :
  aligned df -> List.length mask = len df ->
  rows (select_rows mask df) = bool_index mask (rows df).
Proof.
  intros Hal Hlen. unfold rows. rewrite select_rows_values.
  unfold len at 1. cbn [select_rows index].
  rewrite bool_index_length by (now rewrite Hlen).
  rewrite <- Hlen. apply iloc_rows_bool_index.
  rewrite Hlen. now apply aligned_columns.
Qed.

Lemma aligned_select_rows (mask : list bool) (df : DataFrame) :
  aligned df -> aligned (select_rows mask df).
Proof.
  unfold aligned, select_rows, len. cbn [index columns]. intros H.
  apply Forall_map. eapply Forall_impl; [|exact H].
  intros c Hc. cbn [with_values values].
  now apply bool_index_same_length.
Qed.

Lemma aligned_map_cells (f : Series -> Series) (df : DataFrame) :
  (forall c, List.length (values (f c)) = List.length (values c)) ->
  aligned df ->
  aligned {| index := index df; columns := map f (columns df) |}.
Proof.
  unfold aligned, len. cbn [index columns]. intros Hf H.
  apply Forall_map. eapply Forall_impl; [|exact H].
  intros c Hc. now rewrite Hf.
Qed.

Lemma aligned_structure_and_formatting (cfg : config) (t : DataFrame) :
  aligned t -> aligned (structure_and_formatting cfg t).
Proof.
  intros H. unfold structure_and_formatting.
  assert (H1 : aligned (if chk_duplicates cfg then drop_duplicates t else t)).
  { destruct (chk_duplicates cfg); [|exact H]. unfold drop_duplicates.
    destruct (empty t); [exact H|now apply aligned_select_rows]. }
  revert H1. generalize (if chk_duplicates cfg then drop_duplicates t else t).
  intros t1 H1.
  assert (H2 : aligned (if chk_empty_rows cfg then dropna_all t1 else t1)).
  { destruct (chk_empty_rows cfg); [|exact H1]. now apply aligned_select_rows. }
  revert H2. generalize (if chk_empty_rows cfg then dropna_all t1 else t1).
  intros t2 H2.
  assert (H3 : aligned (if chk_trim cfg then trim_whitespace t2 else t2)).
  { destruct (chk_trim cfg); [|exact H2]. apply aligned_map_cells; [|exact H2].
    intros c. destruct (is_object c); [|reflexivity].
    unfold with_values, str_map. cbn [values]. now rewrite length_map. }
  revert H3. generalize (if chk_trim cfg then trim_whitespace t2 else t2).
  intros t3 H3.
  destruct (chk_title_case cfg); [|exact H3].
  apply aligned_map_cells; [|exact H3].
  intros c. destruct (is_object c && name_like (name c)); [|reflexivity].
  unfold with_values, str_map. cbn [values]. now rewrite length_map.
Qed.


(** ** C4: the e-mail filter *)








(** ** C10: what the validator accepts beyond the apparent pattern *)

(** A text of the shape of an address is still accepted with one line feed
    appended. *)
Lemma trailing_line_feed_accepted (s : string) :
  Spec.email_shape s -> is_valid_email (CStr (s ++ LF)) = true.
Proof.
  intros H. unfold is_valid_email. cbn [py_str].
  apply re_match_pattern_shape. right. exists s. split; [exact H|reflexivity].
Qed.

(** C10. The validator accepts "a@b.com" followed by one line feed, and the
    e-mail step keeps that row (but not the row with two line feeds); every
    cell is rendered with [str] before matching, so a number is matched
    through its digits and a missing cell through "nan". *)
Theorem is_valid_email_line_feed_and_str :
  is_valid_email (CStr ("a@b.com" ++ LF)) = true
  /\ is_valid_email (CStr "a@b.com") = true
  /\ is_valid_email (CStr ("a@b.com" ++ LF ++ LF)) = false
  /\ clean (only_email_check "email") with_line_feed = Ok with_line_feed_kept
  /\ (forall c : cell, is_valid_email c = Re.re_match pattern (py_str c))
  /\ (forall z : Z, py_str (CInt z) = PyStr.str_of_int z)
  /\ py_str (CInt 42) = "42" /\ py_str (CInt (-7)) = "-7" /\ py_str CNaN = "nan"
  /\ is_valid_email (CInt 42) = false.
Proof. repeat split. Qed.

(** ** C7: removing duplicates twice *)

Lemma seen_before_length (seen rs : list row) :
  List.length (seen_before seen rs) = List.length rs.
Proof.
  revert seen. induction rs as [|r rs IH]; intros seen; simpl; [reflexivity|].
  now rewrite IH.
Qed.

(** Only the set of rows already seen matters. *)
Lemma seen_before_same_rows (s1 s2 rs : list row) :
  (forall r, r ∈ s1 <-> r ∈ s2) -> seen_before s1 rs = seen_before s2 rs.
Proof.
  revert s1 s2. induction rs as [|r rs IH]; intros s1 s2 H; [reflexivity|].
  cbn [seen_before]. f_equal.
  - apply bool_decide_ext, H.
  - apply IH. intros x. rewrite !elem_of_cons, H. reflexivity.
Qed.

(** Selecting the rows not seen before leaves the first occurrences. *)
Lemma bool_index_seen_before (seen rs : list row) :
  bool_index (map negb (seen_before seen rs)) rs = Spec.first_occurrences seen rs.
Proof.
  revert seen. induction rs as [|r rs IH]; intros seen; [reflexivity|].
  cbn [seen_before Spec.first_occurrences map bool_index].
  destruct (bool_decide (r ∈ seen)) eqn:Hr; cbn [negb].
  - apply bool_decide_eq_true_1 in Hr. rewrite <- IH.
    rewrite (seen_before_same_rows (r :: seen) seen); [reflexivity|].
    intros x. rewrite elem_of_cons. split; [intros [->|H]; assumption|auto].
  - now rewrite IH.
Qed.

(** Among first occurrences no row has been seen before. *)
Lemma seen_before_first_occurrences (seen rs : list row) :
  Forall (fun b => b = false) (seen_before seen (Spec.first_occurrences seen rs)).
Proof.
  revert seen. induction rs as [|r rs IH]; intros seen; [constructor|].
  cbn [Spec.first_occurrences].
  destruct (bool_decide (r ∈ seen)) eqn:Hr.
  - apply IH.
  - cbn [seen_before]. rewrite Hr. constructor; [reflexivity|apply IH].
Qed.

Lemma count_true_all_false (mask : list bool) :
  Forall (fun b => b = false) mask -> count_true mask = 0%nat.
Proof.
  unfold count_true. induction 1 as [|b mask Hb _ IH]; simpl; [reflexivity|].
  subst b. exact IH.
Qed.

Lemma select_rows_all (mask : list bool) (df : DataFrame) :
  aligned df -> List.length mask = len df ->
  Forall (fun b => b = true) mask ->
  select_rows mask df = df.
Proof.
  intros Hal Hlen Hall. destruct df as [idx cols].
  unfold select_rows, aligned, len in *. cbn [index columns] in *. f_equal.
  - now apply bool_index_all_true.
  - induction Hal as [|c cs Hc _ IH]; simpl; [reflexivity|].
    rewrite IH. f_equal. destruct c as [n d v]. unfold with_values.
    cbn [name dtype_of values] in *. f_equal.
    apply bool_index_all_true; [exact Hall|congruence].
Qed.

Lemma rows_drop_duplicates (t : DataFrame) :
  aligned t ->
  rows (drop_duplicates t)
  = if empty t then rows t else Spec.first_occurrences [] (rows t).
Proof.
  intros Hal. unfold drop_duplicates, duplicated.
  destruct (empty t); [reflexivity|].
  rewrite rows_select_rows; [apply bool_index_seen_before|exact Hal|].
  now rewrite length_map, seen_before_length, rows_length.
Qed.

Lemma drop_duplicates_twice (t : DataFrame) :
  aligned t ->
  drop_duplicates (drop_duplicates t) = drop_duplicates t
  /\ count_true (duplicated (drop_duplicates t)) = 0%nat.
Proof.
  intros Hal.
  assert (Hal' : aligned (drop_duplicates t)).
  { unfold drop_duplicates. destruct (empty t);
      [exact Hal|now apply aligned_select_rows]. }
  pose proof (rows_drop_duplicates t Hal) as Hrows.
  destruct (empty t) eqn:He.
  - assert (Hid : drop_duplicates t = t) by (unfold drop_duplicates; now rewrite He).
    rewrite Hid. split; [exact Hid|].
    unfold duplicated. now rewrite He.
  - set (t' := drop_duplicates t) in *.
    assert (Hmask : Forall (fun b => b = false) (seen_before [] (rows t'))).
    { rewrite Hrows. apply seen_before_first_occurrences. }
    split.
    + unfold drop_duplicates at 1, duplicated. destruct (empty t'); [reflexivity|].
      apply select_rows_all; [exact Hal'| |].
      * now rewrite length_map, seen_before_length, rows_length.
      * apply Forall_map. eapply Forall_impl; [|exact Hmask].
        intros b ->. reflexivity.
    + unfold duplicated. destruct (empty t'); [reflexivity|].
      now apply count_true_all_false.
Qed.

(** C7. With only "Remove Duplicates" enabled, cleaning the cleaned table
    again returns the cleaned table: the first pass keeps the first
    occurrence of each distinct row in the original order, and afterwards no
    row is reported as a duplicate. *)
Theorem clean_only_duplicates_idempotent (cfg : config) (t : DataFrame) :
  only_duplicates cfg -> aligned t ->
  exists t',
    clean cfg t = Ok t'
    /\ clean cfg t' = Ok t'
    /\ count_true (duplicated t') = 0%nat
    /\ rows t' = (if empty t then rows t else Spec.first_occurrences [] (rows t)).
Proof.
  intros (Hd & He & Ht & Hc & Hv) Hal.
  assert (Hclean : forall x, clean cfg x = Ok (drop_duplicates x)).
  { intros x. rewrite clean_steps. unfold email_step_runs, structure_and_formatting.
    rewrite Hd, He, Ht, Hc, Hv. now rewrite andb_false_r. }
  destruct (drop_duplicates_twice t Hal) as [Htwice Hnone].
  exists (drop_duplicates t). rewrite !Hclean, Htwice.
  repeat split; [exact Hnone|now apply rows_drop_duplicates].
Qed.

Lemma clean_only_duplicates_idempotent_witness :
  exists t',
    clean only_remove_duplicates ten_cells = Ok t'
    /\ clean only_remove_duplicates t' = Ok t'.
Proof.
  assert (Hal : aligned ten_cells) by (repeat constructor).
  assert (Hcfg : only_duplicates only_remove_duplicates)
    by (unfold only_duplicates; simpl; auto).
  destruct (clean_only_duplicates_idempotent only_remove_duplicates ten_cells
              Hcfg Hal) as (t' & H1 & H2 & _).
  exists t'. split; assumption.
Defined.
(** ** binary64: bounds that rounding preserves *)

Local Open Scope Z_scope.

Lemma digits2_pos_le (p : positive) (n : Z) :
  0 <= n -> Zpos p < 2 ^ n -> Zpos (digits2_pos p) <= n.
Proof.
  revert n. induction p as [p IH|p IH|]; intros n Hn Hp; cbn [digits2_pos].
  - assert (n <> 0) by (intros ->; simpl in Hp; lia).
    replace n with (Z.succ (n - 1)) in Hp by lia.
    rewrite Z.pow_succ_r in Hp by lia.
    specialize (IH (n - 1)). lia.
  - assert (n <> 0) by (intros ->; simpl in Hp; lia).
    replace n with (Z.succ (n - 1)) in Hp by lia.
    rewrite Z.pow_succ_r in Hp by lia.
    specialize (IH (n - 1)). lia.
  - assert (n <> 0) by (intros ->; simpl in Hp; lia). lia.
Qed.

Lemma digits2_pos_gt (p : positive) : Zpos p < 2 ^ Zpos (digits2_pos p).
Proof.
  induction p as [p IH|p IH|]; cbn [digits2_pos];
    rewrite ?Pos2Z.inj_succ, ?Z.pow_succ_r by lia; lia.
Qed.

Lemma shr_1_inv (X : Z) (r : shr_record) :
  shr_inv (2 * X) r -> shr_inv X (shr_1 r).
Proof.
  destruct r as [m r s]. unfold shr_inv. cbn [shr_m shr_r shr_s].
  intros (H0 & Hle & Hlt).
  destruct m as [|[p|p|]|p]; cbn [shr_1 shr_m shr_r shr_s]; try lia;
    destruct r, s; simpl in *; repeat split; try lia; intros; try discriminate;
    try (specialize (Hlt eq_refl)); lia.
Qed.

Lemma iter_pos_shr_inv (p : positive) (X : Z) (r : shr_record) :
  shr_inv (2 ^ Zpos p * X) r -> shr_inv X (iter_pos shr_1 p r).
Proof.
  revert X r. induction p as [p IH|p IH|]; intros X r H; cbn [iter_pos].
  - apply IH, IH, shr_1_inv.
    replace (2 * (2 ^ Zpos p * (2 ^ Zpos p * X))) with (2 ^ Zpos p~1 * X); [exact H|].
    replace (Zpos p~1) with (Zpos p + Zpos p + 1) by lia.
    rewrite !Z.pow_add_r by lia. change (2 ^ 1) with 2. ring.
  - apply IH, IH.
    replace (2 ^ Zpos p * (2 ^ Zpos p * X)) with (2 ^ Zpos p~0 * X); [exact H|].
    replace (Zpos p~0) with (Zpos p + Zpos p) by lia.
    rewrite !Z.pow_add_r by lia. ring.
  - apply shr_1_inv. exact H.
Qed.

Lemma loc_of_shr_record_inexact (r : shr_record) :
  loc_of_shr_record r <> loc_Exact <-> shr_r r || shr_s r = true.
Proof.
  destruct r as [m [] []]; simpl; split; intros; congruence.
Qed.

Lemma shr_record_of_loc_m (m : Z) (l : location) :
  shr_m (shr_record_of_loc m l) = m
  /\ loc_of_shr_record (shr_record_of_loc m l) = l.
Proof. destruct l as [|[]]; simpl; auto. Qed.

Lemma pow2_units (H e e' : Z) :
  e <= e' -> e' <= 0 -> H * 2 ^ (- e) = 2 ^ (e' - e) * (H * 2 ^ (- e')).
Proof.
  intros. replace (- e) with ((e' - e) + (- e')) by lia.
  rewrite Z.pow_add_r by lia. ring.
Qed.

Lemma Zdigits2_le (m n : Z) :
  0 <= m -> 0 <= n -> m < 2 ^ n -> Zdigits2 m <= n.
Proof.
  intros Hm Hn Hlt. destruct m as [|p|p]; cbn [Zdigits2]; try lia.
  now apply digits2_pos_le.
Qed.

(** Shifting a mantissa to its target exponent keeps it under the bound. *)
Lemma shr_fexp_inv (m e : Z) (l : location) (H : Z) :
  0 <= m -> e <= 0 -> 0 <= H < 2 ^ 53 ->
  m <= H * 2 ^ (- e) -> (l <> loc_Exact -> m < H * 2 ^ (- e)) ->
  exists mrs e',
    shr_fexp Float64.prec Float64.emax m e l = (mrs, e')
    /\ e <= e' <= 0
    /\ shr_inv (H * 2 ^ (- e')) mrs.
Proof.
  intros Hm He HH Hle Hlt.
  destruct (shr_record_of_loc_m m l) as [Hrm Hrl].
  assert (Hstart : shr_inv (H * 2 ^ (- e)) (shr_record_of_loc m l)).
  { unfold shr_inv. rewrite Hrm. split; [exact Hm|]. split; [exact Hle|].
    intros Hrs. apply Hlt. rewrite <- Hrl.
    now apply loc_of_shr_record_inexact. }
  unfold shr_fexp, shr.
  destruct (fexp Float64.prec Float64.emax (Zdigits2 m + e) - e) as [|p|p] eqn:Hk.
  - exists (shr_record_of_loc m l), e. split; [reflexivity|]. split; [lia|exact Hstart].
  - assert (Hdig : Zdigits2 m <= 53 - e).
    { apply Zdigits2_le; [exact Hm|lia|].
      eapply Z.le_lt_trans; [exact Hle|].
      replace (53 - e) with (53 + - e) by lia. rewrite Z.pow_add_r by lia.
      apply Z.mul_lt_mono_pos_r; [apply Z.pow_pos_nonneg; lia|lia]. }
    assert (He' : e + Zpos p <= 0).
    { unfold fexp, emin, Float64.prec, Float64.emax in Hk. lia. }
    exists (iter_pos shr_1 p (shr_record_of_loc m l)), (e + Zpos p).
    split; [reflexivity|]. split; [lia|].
    apply iter_pos_shr_inv.
    rewrite (pow2_units H e (e + Zpos p)) in Hstart by lia.
    replace (e + Zpos p - e) with (Zpos p) in Hstart by lia. exact Hstart.
  - exists (shr_record_of_loc m l), e. split; [reflexivity|]. split; [lia|exact Hstart].
Qed.

Lemma round_nearest_even_inv (X : Z) (r : shr_record) :
  shr_inv X r ->
  0 <= round_nearest_even (shr_m r) (loc_of_shr_record r) <= X.
Proof.
  destruct r as [m r s]. unfold shr_inv. cbn [shr_m shr_r shr_s].
  intros (H0 & Hle & Hlt).
  destruct r, s; cbn [loc_of_shr_record round_nearest_even shr_m];
    simpl in Hlt; try lia; specialize (Hlt eq_refl);
    try match goal with |- context [if ?b then _ else _] => destruct b end; lia.
Qed.

(** The rounding every operation ends with: a value at most [H] (strictly
    less when the mantissa is not exact) rounds to a value at most [H]. *)
Lemma binary_round_aux_magnitude (sx : bool) (mx ex : Z) (lx : location) (H : Z) :
  0 <= mx -> ex <= 0 -> 0 <= H < 2 ^ 53 ->
  mx <= H * 2 ^ (- ex) -> (lx <> loc_Exact -> mx < H * 2 ^ (- ex)) ->
  magnitude H (binary_round_aux Float64.prec Float64.emax sx mx ex lx)
  /\ has_sign sx (binary_round_aux Float64.prec Float64.emax sx mx ex lx).
Proof.
  intros Hm He HH Hle Hlt. unfold binary_round_aux.
  destruct (shr_fexp_inv mx ex lx H Hm He HH Hle Hlt) as (mrs & e' & Heq & He' & Hinv).
  rewrite Heq.
  pose proof (round_nearest_even_inv _ _ Hinv) as Hround.
  set (m2 := round_nearest_even (shr_m mrs) (loc_of_shr_record mrs)) in *.
  destruct (shr_fexp_inv m2 e' loc_Exact H) as (mrs2 & e'' & Heq2 & He'' & Hinv2);
    try lia; try congruence.
  rewrite Heq2. destruct Hinv2 as (H0 & Hle2 & _).
  destruct (shr_m mrs2) as [|p|p] eqn:Hm2.
  - split; exact I.
  - replace (e'' <=? Float64.emax - Float64.prec) with true.
    + cbn [magnitude has_sign]. split; [split; lia|reflexivity].
    + symmetry. apply Z.leb_le. unfold Float64.emax, Float64.prec. lia.
  - lia.
Qed.

Lemma has_sign_nonneg (x : Float64.float) : has_sign false x -> nonneg x.
Proof. destruct x; simpl; auto. Qed.

(** *** Multiplication *)

Lemma mul_bounded (H1 H2 : Z) (x y : Float64.float) :
  0 <= H1 -> 0 <= H2 -> H1 * H2 < 2 ^ 53 ->
  bounded H1 x -> bounded H2 y -> bounded (H1 * H2) (Float64.mul x y).
Proof.
  intros HH1 HH2 Hprod [Hx Sx] [Hy Sy].
  destruct x as [sx| | |sx mx ex], y as [sy| | |sy my ey];
    simpl in Hx, Hy, Sx, Sy; try contradiction;
    try (split; exact I).
  subst sx sy. destruct Hx as [Hex Hmx], Hy as [Hey Hmy].
  unfold Float64.mul. cbn [SFmul xorb].
  destruct (binary_round_aux_magnitude false (Zpos (mx * my)) (ex + ey)
              loc_Exact (H1 * H2)) as [Hmag Hsign]; try lia; try congruence.
  - rewrite Pos2Z.inj_mul.
    replace (- (ex + ey)) with (- ex + - ey) by lia.
    rewrite Z.pow_add_r by lia.
    replace (H1 * H2 * (2 ^ (- ex) * 2 ^ (- ey)))
      with ((H1 * 2 ^ (- ex)) * (H2 * 2 ^ (- ey))) by ring.
    apply Z.mul_le_mono_nonneg; lia.
  - split; [exact Hmag|now apply has_sign_nonneg].
Qed.

(** *** Conversion of integers below 2^53 is exact *)

Lemma iter_xO_value (p k : positive) :
  Zpos (Pos.iter xO p k) = Zpos p * 2 ^ Zpos k
  /\ digits2_pos (Pos.iter xO p k) = (digits2_pos p + k)%positive.
Proof.
  induction k as [|k [IH1 IH2]] using Pos.peano_ind.
  - simpl. split; [lia|]. now rewrite Pos.add_1_r.
  - rewrite Pos.iter_succ. split.
    + rewrite Pos2Z.inj_xO, IH1, Pos2Z.inj_succ, Z.pow_succ_r by lia. ring.
    + cbn [digits2_pos]. rewrite IH2. lia.
Qed.

Lemma binary_round_aux_canonical (s : bool) (m : positive) (e : Z) :
  Zpos (digits2_pos m) = 53 -> -1074 <= e <= 971 ->
  binary_round_aux Float64.prec Float64.emax s (Zpos m) e loc_Exact
  = S754_finite s m e.
Proof.
  intros Hd He.
  assert (Hshift : shr_fexp Float64.prec Float64.emax (Zpos m) e loc_Exact
                   = ({| shr_m := Zpos m; shr_r := false; shr_s := false |}, e)).
  { unfold shr_fexp, shr. cbn [Zdigits2]. rewrite Hd.
    replace (fexp Float64.prec Float64.emax (53 + e) - e) with 0; [reflexivity|].
    unfold fexp, emin, Float64.prec, Float64.emax. lia. }
  unfold binary_round_aux. rewrite Hshift.
  cbn [shr_m loc_of_shr_record round_nearest_even]. rewrite Hshift.
  cbn [shr_m].
  replace (e <=? Float64.emax - Float64.prec) with true; [reflexivity|].
  symmetry. apply Z.leb_le. unfold Float64.emax, Float64.prec. lia.
Qed.

Lemma of_int_exact (z : Z) :
  0 < z < 2 ^ 53 ->
  exists m e,
    Float64.of_int z = S754_finite false m e
    /\ e = Zdigits2 z - 53 /\ -52 <= e <= 0 /\ Zpos m = z * 2 ^ (- e).
Proof.
  intros [H0 Hlt]. destruct z as [|p|p]; try lia.
  assert (Hd : 1 <= Zpos (digits2_pos p) <= 53).
  { split; [lia|]. apply digits2_pos_le; [lia|exact Hlt]. }
  unfold Float64.of_int, binary_normalize, binary_round. cbn [Zdigits2].
  assert (Hfexp : fexp Float64.prec Float64.emax (Zpos (digits2_pos p) + 0)
                  = Zpos (digits2_pos p) - 53).
  { unfold fexp, emin, Float64.prec, Float64.emax. lia. }
  rewrite Hfexp. unfold shl_align.
  destruct (Zpos (digits2_pos p) - 53 - 0) as [|k|k] eqn:Hk; try lia.
  - rewrite binary_round_aux_canonical by lia.
    exists p, 0. repeat split; try lia.
  - destruct (iter_xO_value p k) as [Hv Hdig].
    rewrite binary_round_aux_canonical.
    + exists (Pos.iter xO p k), (Zpos (digits2_pos p) - 53).
      split; [reflexivity|]. split; [reflexivity|]. split; [lia|].
      rewrite Hv. f_equal. f_equal. lia.
    + rewrite Hdig, Pos2Z.inj_add. lia.
    + lia.
Qed.

Lemma of_int_bounded (z : Z) : 0 <= z < 2 ^ 53 -> bounded z (Float64.of_int z).
Proof.
  intros [H0 Hlt]. destruct (Z.eq_dec z 0) as [->|Hz].
  - split; exact I.
  - destruct (of_int_exact z) as (m & e & -> & _ & He & Hm); [lia|].
    split; [|reflexivity]. cbn [magnitude]. lia.
Qed.

Lemma Zdigits2_mono (a b : Z) : 0 < a <= b -> Zdigits2 a <= Zdigits2 b.
Proof.
  intros [Ha Hab]. destruct a as [|p|p], b as [|q|q]; try lia.
  cbn [Zdigits2]. apply digits2_pos_le; [lia|].
  eapply Z.le_lt_trans; [exact Hab|apply digits2_pos_gt].
Qed.

(** *** Division of a count by a total *)

Lemma new_location_exact (n : Z) : new_location n 0 = loc_Exact.
Proof.
  unfold new_location, new_location_even, new_location_odd.
  destruct (Z.even n); reflexivity.
Qed.

Lemma SFdiv_core_binary_le_one (mx my : positive) (ex ey : Z) :
  ex <= ey -> ey <= 0 ->
  Zpos mx * 2 ^ (- ey) <= Zpos my * 2 ^ (- ex) ->
  exists q e' l,
    SFdiv_core_binary Float64.prec Float64.emax (Zpos mx) ex (Zpos my) ey
    = (q, e', l)
    /\ 0 <= q /\ e' <= 0 /\ q <= 1 * 2 ^ (- e')
    /\ (l <> loc_Exact -> q < 1 * 2 ^ (- e')).
Proof.
  intros Hex Hey Hle. unfold SFdiv_core_binary.
  set (e' := Z.min (fexp Float64.prec Float64.emax
                      (Zdigits2 (Zpos mx) + ex - (Zdigits2 (Zpos my) + ey)))
                   (ex - ey)).
  assert (He' : e' <= ex - ey) by apply Z.le_min_r.
  set (s := ex - ey - e').
  assert (Hs : 0 <= s) by (unfold s; lia).
  set (m' := match s with
             | 0 => Zpos mx
             | Zpos _ => Z.shiftl (Zpos mx) s
             | Zneg _ => 0
             end).
  assert (Hm' : m' = Zpos mx * 2 ^ s).
  { unfold m'. destruct s as [|p|p] eqn:Hsp; try lia.
    rewrite Z.shiftl_mul_pow2 by lia. reflexivity. }
  assert (Hkey : m' <= Zpos my * 2 ^ (- e')).
  { rewrite Hm'.
    apply (Z.mul_le_mono_pos_r _ _ (2 ^ (- ey))); [apply Z.pow_pos_nonneg; lia|].
    replace (Zpos mx * 2 ^ s * 2 ^ (- ey)) with (Zpos mx * 2 ^ (- ey) * 2 ^ s) by ring.
    replace (Zpos my * 2 ^ (- e') * 2 ^ (- ey)) with (Zpos my * 2 ^ (- ex) * 2 ^ s).
    - apply Z.mul_le_mono_nonneg_r; [apply Z.pow_nonneg; lia|exact Hle].
    - rewrite <- !Z.mul_assoc, <- !Z.pow_add_r by lia.
      f_equal. f_equal. unfold s. lia. }
  pose proof (Z_div_mod m' (Zpos my) eq_refl) as Hdiv.
  destruct (Z.div_eucl m' (Zpos my)) as [q r]. destruct Hdiv as [Hqr Hr].
  assert (Hpow : 0 < 2 ^ (- e')) by (apply Z.pow_pos_nonneg; lia).
  assert (Hm'0 : 0 <= m') by (rewrite Hm'; apply Z.mul_nonneg_nonneg;
                               [lia|apply Z.pow_nonneg; lia]).
  exists q, e', (new_location (Zpos my) r).
  split; [reflexivity|]. split; [nia|]. split; [lia|].
  rewrite Z.mul_1_l. split.
  - nia.
  - intros Hloc. assert (r <> 0) by (intros ->; now rewrite new_location_exact in Hloc).
    nia.
Qed.

Lemma div_of_int_bounded (c t : Z) :
  0 <= c <= t -> 0 < t < 2 ^ 53 ->
  bounded 1 (Float64.div (Float64.of_int c) (Float64.of_int t)).
Proof.
  intros [Hc Hct] [Ht Hlt].
  destruct (of_int_exact t) as (mt & et & Heqt & Het & Hrt & Hmt); [lia|].
  rewrite Heqt. destruct (Z.eq_dec c 0) as [->|Hc0].
  - split; exact I.
  - destruct (of_int_exact c) as (mc & ec & Heqc & Hec & Hrc & Hmc); [lia|].
    rewrite Heqc. unfold Float64.div. cbn [SFdiv xorb].
    assert (Hexp : ec <= et).
    { rewrite Hec, Het. pose proof (Zdigits2_mono c t). lia. }
    destruct (SFdiv_core_binary_le_one mc mt ec et) as (q & e' & l & Heq & Hq & He' & Hle & Hlt');
      [exact Hexp|lia| |].
    + rewrite Hmc, Hmt.
      replace (c * 2 ^ (- ec) * 2 ^ (- et)) with (c * (2 ^ (- ec) * 2 ^ (- et))) by ring.
      replace (t * 2 ^ (- et) * 2 ^ (- ec)) with (t * (2 ^ (- ec) * 2 ^ (- et))) by ring.
      apply Z.mul_le_mono_nonneg_r; [|exact Hct].
      apply Z.mul_nonneg_nonneg; apply Z.pow_nonneg; lia.
    + rewrite Heq.
      destruct (binary_round_aux_magnitude false q e' l 1) as [Hmag Hsign];
        try assumption; try lia.
      split; [exact Hmag|now apply has_sign_nonneg].
Qed.

(** *** Subtraction *)

Lemma shl_align_value (mx : positive) (ex ez : Z) :
  ez <= ex ->
  Zpos (fst (shl_align mx ex ez)) = Zpos mx * 2 ^ (ex - ez).
Proof.
  intros Hle. unfold shl_align.
  destruct (ez - ex) as [|d|d] eqn:Hd; try lia; cbn [fst].
  - replace (ex - ez) with 0 by lia. simpl. lia.
  - destruct (iter_xO_value mx d) as [Hv _].
    rewrite Hv. f_equal. f_equal. lia.
Qed.

Lemma binary_round_magnitude (s : bool) (m : positive) (e H : Z) :
  e <= 0 -> 0 <= H < 2 ^ 53 -> Zpos m <= H * 2 ^ (- e) ->
  magnitude H (binary_round Float64.prec Float64.emax s m e)
  /\ has_sign s (binary_round Float64.prec Float64.emax s m e).
Proof.
  intros He HH Hm. unfold binary_round.
  set (e' := fexp Float64.prec Float64.emax (Zpos (digits2_pos m) + e)).
  assert (Hcases : (e' < e /\ shl_align m e e' = (fst (shl_align m e e'), e'))
                   \/ (e <= e' /\ shl_align m e e' = (m, e))).
  { unfold shl_align. destruct (e' - e) as [|d|d] eqn:Hd.
    - right. split; [lia|reflexivity].
    - right. split; [lia|reflexivity].
    - left. split; [lia|reflexivity]. }
  destruct Hcases as [[Hlt Heq]|[Hle Heq]]; rewrite Heq.
  - apply binary_round_aux_magnitude; try lia; try congruence.
    rewrite shl_align_value by lia.
    rewrite (pow2_units H e' e) by lia. rewrite (Z.mul_comm (2 ^ (e - e'))).
    apply Z.mul_le_mono_nonneg_r; [apply Z.pow_nonneg; lia|exact Hm].
  - apply binary_round_aux_magnitude; try lia; try congruence.
Qed.

(** The difference of two values in [0, H] has magnitude at most [H]; it is
    not negative when the first value is [H] itself. *)
Lemma sub_bounded (H : Z) (x y : Float64.float) :
  0 <= H < 2 ^ 53 -> bounded H x -> bounded H y ->
  magnitude H (Float64.sub x y)
  /\ ((match x with
       | S754_finite _ m e => Zpos m = H * 2 ^ (- e)
       | _ => False
       end) -> nonneg (Float64.sub x y)).
Proof.
  intros HH [Hx Sx] [Hy Sy].
  destruct x as [sx| | |sx mx ex], y as [sy| | |sy my ey];
    simpl in Hx, Hy, Sx, Sy; try contradiction.
  - split; [|intros []]. destruct sx, sy; exact I.
  - split; [|intros []]. exact Hy.
  - split; [exact Hx|intros _; exact Sx].
  - subst sx sy. destruct Hx as [Hex Hmx], Hy as [Hey Hmy].
    unfold Float64.sub. cbn [SFsub cond_Zopp].
    set (ez := Z.min ex ey).
    assert (Hez : ez <= ex /\ ez <= ey /\ ez <= 0) by (unfold ez; lia).
    rewrite !shl_align_value by lia.
    assert (Hx' : Zpos mx * 2 ^ (ex - ez) <= H * 2 ^ (- ez)).
    { rewrite (pow2_units H ez ex) by lia. rewrite (Z.mul_comm (2 ^ (ex - ez))).
      apply Z.mul_le_mono_nonneg_r; [apply Z.pow_nonneg; lia|exact Hmx]. }
    assert (Hy' : Zpos my * 2 ^ (ey - ez) <= H * 2 ^ (- ez)).
    { rewrite (pow2_units H ez ey) by lia. rewrite (Z.mul_comm (2 ^ (ey - ez))).
      apply Z.mul_le_mono_nonneg_r; [apply Z.pow_nonneg; lia|exact Hmy]. }
    assert (Hx0 : 0 < Zpos mx * 2 ^ (ex - ez))
      by (apply Z.mul_pos_pos; [lia|apply Z.pow_pos_nonneg; lia]).
    assert (Hy0 : 0 < Zpos my * 2 ^ (ey - ez))
      by (apply Z.mul_pos_pos; [lia|apply Z.pow_pos_nonneg; lia]).
    destruct (Zpos mx * 2 ^ (ex - ez) - Zpos my * 2 ^ (ey - ez)) as [|p|p] eqn:Hd;
      cbn [binary_normalize].
    + split; [exact I|intros _; exact I].
    + destruct (binary_round_magnitude false p ez H) as [Hmag Hsign]; try lia.
      split; [exact Hmag|intros _; now apply has_sign_nonneg].
    + destruct (binary_round_magnitude true p ez H) as [Hmag Hsign]; try lia.
      split; [exact Hmag|]. intros Hexact. exfalso.
      assert (Zpos mx * 2 ^ (ex - ez) = H * 2 ^ (- ez)).
      { rewrite Hexact, (pow2_units H ez ex) by lia. ring. }
      lia.
Qed.

(** *** Truncation *)

Lemma clamp_int_magnitude (H : Z) (x : Float64.float) :
  0 <= H -> magnitude H x ->
  exists k, Float64.to_int x = Some k /\ - H <= k <= H
            /\ clamp_int x = Ok (Z.max 0 k).
Proof.
  intros HH Hx. destruct x as [s| | |s m e]; simpl in Hx; try contradiction.
  - exists 0. repeat split; lia.
  - destruct Hx as [He Hm].
    exists (cond_Zopp s (Float64.int_part m e)).
    split; [reflexivity|]. split; [|reflexivity].
    assert (Hpart : 0 <= Float64.int_part m e <= H).
    { unfold Float64.int_part. destruct e as [|p|p]; try lia.
      change (- Zneg p) with (Zpos p) in Hm.
      assert (0 < 2 ^ Zpos p) by (apply Z.pow_pos_nonneg; lia).
      split; [apply Z.div_pos; lia|].
      apply Z.div_le_upper_bound; lia. }
    destruct s; simpl; lia.
Qed.

(** ** C1: the quality score *)

Lemma count_true_le (mask : list bool) :
  (count_true mask <= List.length mask)%nat.
Proof. unfold count_true. apply filter_length_le. Qed.

Lemma isnull_sum_sum_le_size (df : DataFrame) :
  aligned df -> (isnull_sum_sum df <= size df)%nat.
Proof.
  unfold aligned, isnull_sum_sum, isnull_sum, size, shape1.
  generalize (len df) as n. intros n Hal.
  induction Hal as [|c cs Hc _ IH]; simpl; [lia|].
  pose proof (count_true_le (map isnull (values c))) as Hle.
  rewrite length_map, Hc in Hle. lia.
Qed.

Lemma duplicated_le_len (df : DataFrame) :
  (count_true (duplicated df) <= len df)%nat.
Proof.
  unfold duplicated. destruct (empty df); [apply Nat.le_0_l|].
  eapply Nat.le_trans; [apply count_true_le|].
  now rewrite seen_before_length, rows_length.
Qed.

Lemma of_int_100 : Float64.of_int 100 = S754_finite false 7036874417766400 (-46).
Proof. reflexivity. Qed.

Lemma lit_bounded :
  bounded 1 Float64.lit_0_7 /\ bounded 1 Float64.lit_0_3.
Proof.
  unfold bounded, Float64.lit_0_7, Float64.lit_0_3. cbn [magnitude nonneg].
  repeat split; try lia; apply Z.leb_le; reflexivity.
Qed.

(** A penalty lies between 0 and 100. *)
Lemma penalty_bounded (count total : Z) :
  0 <= count <= total -> total < 2 ^ 53 -> bounded 100 (penalty count total).
Proof.
  intros Hc Ht. unfold penalty. destruct (total >? 0) eqn:Hpos.
  - apply Z.gtb_lt in Hpos.
    change 100 with (1 * 100) at 1. apply mul_bounded; try lia.
    + apply div_of_int_bounded; lia.
    + apply of_int_bounded. lia.
  - split; exact I.
Qed.

Lemma weighted_score_magnitude (mp dp : Float64.float) :
  bounded 100 mp -> bounded 100 dp -> magnitude 100 (weighted_score mp dp).
Proof.
  intros Hmp Hdp. destruct lit_bounded as [H7 H3].
  assert (HH : 0 <= 100 < 2 ^ 53) by lia.
  assert (Ha : bounded 100 (Float64.mul mp Float64.lit_0_7)).
  { change 100 with (100 * 1). apply mul_bounded; try lia; assumption. }
  assert (Hb : bounded 100 (Float64.mul dp Float64.lit_0_3)).
  { change 100 with (100 * 1). apply mul_bounded; try lia; assumption. }
  assert (H100 : bounded 100 (Float64.of_int 100)) by (apply of_int_bounded; lia).
  destruct (sub_bounded 100 _ _ HH H100 Ha) as [Hmag Hnn].
  unfold weighted_score.
  apply sub_bounded; [exact HH| |exact Hb].
  split; [exact Hmag|]. apply Hnn. rewrite of_int_100. reflexivity.
Qed.

(** C1, as stated over exact arithmetic, fails: for six blank rows the
    penalties are 100 and 500/6, so the formula gives 100 - 70 - 25 = 5,
    while the code, computing in binary64, returns 4. *)
Lemma score_differs_from_exact_formula :
  calculate_quality_score six_blank_rows <> Ok (Spec.exact_score six_blank_rows)
  /\ calculate_quality_score six_blank_rows = Ok 4
  /\ Spec.exact_score six_blank_rows = 5.
Proof.
  assert (H4 : calculate_quality_score six_blank_rows = Ok 4) by (vm_compute; reflexivity).
  assert (H5 : Spec.exact_score six_blank_rows = 5) by (vm_compute; reflexivity).
  rewrite H4, H5. repeat split. discriminate.
Qed.

(** C1, amended. For every table whose columns are aligned with its rows
    (and with fewer than 2^53 rows and cells) the score is computed without
    error; it is the binary64 value of
    100 - missing_penalty * 0.7 - duplicate_penalty * 0.3, each operation
    rounded to nearest, truncated toward zero and clamped below at 0, where
    each penalty is (count / total) * 100 in binary64, or 0 for a total of
    0; both penalties lie in [0, 100] and the score lies in [0, 100].  A
    table with 10 cells, 2 missing, 5 rows and 1 duplicate row scores 80. *)
Theorem calculate_quality_score_binary64 (df : DataFrame) :
  aligned df ->
  Z.of_nat (len df) < 2 ^ 53 -> Z.of_nat (size df) < 2 ^ 53 ->
  let missing_penalty :=
    penalty (Z.of_nat (isnull_sum_sum df)) (Z.of_nat (size df)) in
  let duplicate_penalty :=
    penalty (Z.of_nat (count_true (duplicated df))) (Z.of_nat (len df)) in
  exists k : Z,
    Float64.to_int
      (Float64.sub
         (Float64.sub (Float64.of_int 100)
                      (Float64.mul missing_penalty Float64.lit_0_7))
         (Float64.mul duplicate_penalty Float64.lit_0_3)) = Some k
    /\ calculate_quality_score df = Ok (Z.max 0 k)
    /\ 0 <= Z.max 0 k <= 100
    /\ bounded 100 missing_penalty /\ bounded 100 duplicate_penalty
    /\ score_of_counts 10 2 1 5 = Ok 80
    /\ calculate_quality_score ten_cells = Ok 80.
Proof.
  intros Hal Hrows Hcells mp dp.
  assert (Hmp : bounded 100 mp).
  { apply penalty_bounded; [|exact Hcells].
    pose proof (isnull_sum_sum_le_size df Hal). lia. }
  assert (Hdp : bounded 100 dp).
  { apply penalty_bounded; [|exact Hrows].
    pose proof (duplicated_le_len df). lia. }
  destruct (clamp_int_magnitude 100 (weighted_score mp dp)) as (k & Hk & Hrange & Hclamp);
    [lia|now apply weighted_score_magnitude|].
  exists k. split; [exact Hk|]. split.
  - rewrite calculate_quality_score_counts. exact Hclamp.
  - split; [lia|]. split; [exact Hmp|]. split; [exact Hdp|].
    split; vm_compute; reflexivity.
Qed.

Lemma calculate_quality_score_binary64_witness :
  exists k : Z, calculate_quality_score ten_cells = Ok (Z.max 0 k)
                /\ 0 <= Z.max 0 k <= 100.
Proof.
  assert (Hal : aligned ten_cells) by (repeat constructor).
  destruct (calculate_quality_score_binary64 ten_cells Hal eq_refl eq_refl)
    as (k & _ & H1 & H2 & _).
  exists k. split; assumption.
Defined.

(* ================================================================== *)
(** * Further properties of the application *)

(** ** Trim Whitespace *)

Lemma lstrip_no_leading_space (s : string) : no_leading_space (PyStr.lstrip s).
Proof.
  induction s as [|c s IH]; simpl; [exact I|].
  destruct (PyStr.is_space c) eqn:Hc; [exact IH|exact Hc].
Qed.

Lemma rstrip_head (c : ascii) (s : string) :
  PyStr.is_space c = false ->
  exists r, PyStr.rstrip (String c s) = String c r.
Proof.
  intros Hc. cbn [PyStr.rstrip]. destruct (PyStr.rstrip s) as [|c' r].
  - rewrite Hc. eauto.
  - eauto.
Qed.

Lemma rstrip_no_trailing_space (s : string) : no_trailing_space (PyStr.rstrip s).
Proof.
  induction s as [|c s IH]; [exact I|].
  cbn [PyStr.rstrip]. destruct (PyStr.rstrip s) as [|c' r].
  - destruct (PyStr.is_space c) eqn:Hc; [exact I|exact Hc].
  - exact IH.
Qed.

Lemma rstrip_idempotent (s : string) :
  PyStr.rstrip (PyStr.rstrip s) = PyStr.rstrip s.
Proof.
  induction s as [|c s IH]; [reflexivity|].
  cbn [PyStr.rstrip]. destruct (PyStr.rstrip s) as [|c' r] eqn:Hr.
  - destruct (PyStr.is_space c) eqn:Hc; [reflexivity|].
    cbn [PyStr.rstrip]. now rewrite Hc.
  - cbn [PyStr.rstrip]. cbn [PyStr.rstrip] in IH. rewrite IH. reflexivity.
Qed.

Lemma lstrip_fixed (s : string) : no_leading_space s -> PyStr.lstrip s = s.
Proof. destruct s as [|c s]; simpl; [reflexivity|]. now intros ->. Qed.

Lemma strip_no_space (s : string) :
  no_leading_space (PyStr.strip s) /\ no_trailing_space (PyStr.strip s).
Proof.
  split; [|apply rstrip_no_trailing_space].
  unfold PyStr.strip. pose proof (lstrip_no_leading_space s) as H.
  destruct (PyStr.lstrip s) as [|c r]; [exact I|].
  destruct (rstrip_head c r H) as [r' ->]. exact H.
Qed.

Lemma strip_idempotent (s : string) :
  PyStr.strip (PyStr.strip s) = PyStr.strip s.
Proof.
  destruct (strip_no_space s) as [Hhead _].
  unfold PyStr.strip at 1. rewrite (lstrip_fixed _ Hhead).
  unfold PyStr.strip. apply rstrip_idempotent.
Qed.

(** What [strip] removes is whitespace at the two ends. *)
Lemma lstrip_prefix (s : string) :
  exists pre, s = pre ++ PyStr.lstrip s /\ Spec.all_in PyStr.is_space pre.
Proof.
  induction s as [|c s (pre & Hs & Hpre)]; [exists ""; split; reflexivity|].
  cbn [PyStr.lstrip]. destruct (PyStr.is_space c) eqn:Hc.
  - exists (String c pre). split; [simpl; congruence|].
    unfold Spec.all_in in *. simpl. now rewrite Hc.
  - exists "". split; reflexivity.
Qed.

Lemma rstrip_suffix (s : string) :
  exists post, s = PyStr.rstrip s ++ post /\ Spec.all_in PyStr.is_space post.
Proof.
  induction s as [|c s (post & Hs & Hpost)]; [exists ""; split; reflexivity|].
  cbn [PyStr.rstrip]. destruct (PyStr.rstrip s) as [|c' r] eqn:Hr.
  - destruct (PyStr.is_space c) eqn:Hc.
    + exists (String c post). simpl in Hs. split; [simpl; congruence|].
      unfold Spec.all_in in *. simpl. now rewrite Hc.
    + exists post. simpl in Hs |- *. split; [congruence|exact Hpost].
  - exists post. simpl in Hs |- *. split; [congruence|exact Hpost].
Qed.

Lemma str_map_idempotent (f : string -> string) (vals : list cell) :
  (forall s, f (f s) = f s) -> str_map f (str_map f vals) = str_map f vals.
Proof.
  intros Hf. unfold str_map. rewrite map_map. apply map_ext.
  intros [|s|z]; try reflexivity. now rewrite Hf.
Qed.

Lemma is_ascii_app (a b : string) :
  is_ascii (a ++ b) = is_ascii a && is_ascii b.
Proof.
  unfold is_ascii. induction a as [|c a IH]; [reflexivity|].
  cbn [String.append list_ascii_of_string forallb]. now rewrite IH, andb_assoc.
Qed.

Lemma strip_ascii (s : string) :
  is_ascii s = true -> is_ascii (PyStr.strip s) = true.
Proof.
  destruct (lstrip_prefix s) as (pre & Hpre & _).
  destruct (rstrip_suffix (PyStr.lstrip s)) as (post & Hpost & _).
  fold (PyStr.strip s) in Hpost.
  assert (H : is_ascii s
              = is_ascii pre && (is_ascii (PyStr.strip s) && is_ascii post))
    by (rewrite <- !is_ascii_app; congruence).
  rewrite H. intros H'. apply andb_prop in H' as [_ H'].
  now apply andb_prop in H' as [H' _].
Qed.

(** X1. On a table whose text columns hold ASCII texts and missing values,
    trimming strips every text of the text columns: in the result such a
    text neither starts nor ends with whitespace, the original text is the
    stripped text between two runs of whitespace, and a missing cell stays
    missing; the other columns and the row labels are untouched, the texts
    of the result are ASCII texts again, and trimming again changes
    nothing. *)
Theorem trim_whitespace_strips (t : DataFrame) :
  ascii_text_columns t = true ->
  trim_whitespace (trim_whitespace t) = trim_whitespace t
  /\ index (trim_whitespace t) = index t
  /\ Forall2 (fun c c' =>
                name c' = name c /\ dtype_of c' = dtype_of c
                /\ if bool_decide (dtype_of c = DObject)
                   then Forall stripped_cell (values c')
                        /\ Forall2 (fun v v' =>
                                      match v with
                                      | CStr s =>
                                          exists pre post,
                                            v' = CStr (PyStr.strip s)
                                            /\ s = pre ++ PyStr.strip s ++ post
                                            /\ Spec.all_in PyStr.is_space pre
                                            /\ Spec.all_in PyStr.is_space post
                                      | _ => v' = v
                                      end) (values c) (values c')
                   else values c' = values c)
             (columns t) (columns (trim_whitespace t))
  /\ ascii_text_columns (trim_whitespace t) = true.
Proof.
  intros Ht. split; [|split; [reflexivity|split]].
  - unfold trim_whitespace. cbn [index columns]. f_equal.
    rewrite map_map. apply map_ext. intros c. unfold is_object.
    destruct (bool_decide (dtype_of c = DObject)) eqn:Hd.
    + cbn [with_values dtype_of]. rewrite Hd. unfold with_values.
      cbn [name dtype_of values]. f_equal.
      apply str_map_idempotent, strip_idempotent.
    + now rewrite Hd.
  - unfold trim_whitespace, ascii_text_columns in *. cbn [columns].
    induction (columns t) as [|c cs IH]; cbn [map]; constructor;
      [|apply IH; cbn [forallb] in Ht; now apply andb_prop in Ht as [_ Ht]].
    cbn [forallb] in Ht. apply andb_prop in Ht as [Hc _]. clear IH.
    unfold is_object in *. destruct (bool_decide (dtype_of c = DObject)).
    + cbn [with_values name dtype_of values negb orb] in *.
      split; [reflexivity|]. split; [reflexivity|]. split.
      * unfold str_map. apply Forall_map. apply Forall_forall.
        intros [|s|z] _; cbn [stripped_cell]; try exact I. apply strip_no_space.
      * unfold str_map. induction (values c) as [|v vs IHv]; cbn [map];
          constructor;
          [|apply IHv; cbn [forallb] in Hc; now apply andb_prop in Hc as [_ Hc]].
        destruct v as [|s|z]; [reflexivity| |discriminate].
        destruct (lstrip_prefix s) as (pre & Hpre & Hspre).
        destruct (rstrip_suffix (PyStr.lstrip s)) as (post & Hpost & Hspost).
        exists pre, post. split; [reflexivity|]. split; [|split; assumption].
        unfold PyStr.strip. rewrite <- Hpost. exact Hpre.
    + auto.
  - unfold trim_whitespace, ascii_text_columns in *. cbn [columns].
    rewrite forallb_forall in *. intros c' Hc'.
    apply in_map_iff in Hc' as (c & <- & Hc). specialize (Ht c Hc).
    unfold is_object in *.
    destruct (bool_decide (dtype_of c = DObject)) eqn:Hd; [|now rewrite Hd].
    cbn [with_values dtype_of values]. rewrite Hd in *. cbn [negb orb] in *.
    rewrite forallb_forall in *. intros v' Hv'. unfold str_map in Hv'.
    apply in_map_iff in Hv' as (v & <- & Hv). specialize (Ht v Hv).
    destruct v as [|s|z]; [reflexivity| |reflexivity].
    cbn [ascii_text] in *. now apply strip_ascii.
Qed.

Lemma trim_whitespace_strips_witness :
  ascii_text_columns padded_names = true
  /\ trim_whitespace (trim_whitespace padded_names) = trim_whitespace padded_names.
Proof.
  split; [reflexivity|].
  destruct (trim_whitespace_strips padded_names eq_refl) as (H & _).
  exact H.
Defined.

(** ** Title Case Names *)

Lemma case_chars (c : ascii) :
  PyStr.is_alpha (PyStr.upper_char c) = PyStr.is_alpha c
  /\ PyStr.is_alpha (PyStr.lower_char c) = PyStr.is_alpha c
  /\ PyStr.upper_char (PyStr.upper_char c) = PyStr.upper_char c
  /\ PyStr.lower_char (PyStr.lower_char c) = PyStr.lower_char c.
Proof.
  destruct c as [[] [] [] [] [] [] [] []]; vm_compute; repeat split.
Qed.

Lemma title_from_idempotent (b : bool) (s : string) :
  PyStr.title_from b (PyStr.title_from b s) = PyStr.title_from b s.
Proof.
  revert b. induction s as [|c s IH]; intros b; [reflexivity|].
  cbn [PyStr.title_from].
  destruct (case_chars c) as (Hu & Hl & Huu & Hll).
  destruct b; rewrite ?Hu, ?Hl, ?Huu, ?Hll, IH; reflexivity.
Qed.

(** X2. On a table whose text columns hold ASCII texts and missing values,
    title-casing the name-like columns again changes nothing, and the step
    keeps the number of rows, the column names and the column types. *)
Theorem title_case_names_idempotent (t : DataFrame) :
  ascii_text_columns t = true ->
  title_case_names (title_case_names t) = title_case_names t
  /\ len (title_case_names t) = len t
  /\ map name (columns (title_case_names t)) = map name (columns t)
  /\ map dtype_of (columns (title_case_names t)) = map dtype_of (columns t)
  /\ map (fun c => List.length (values c)) (columns (title_case_names t))
     = map (fun c => List.length (values c)) (columns t).
Proof.
  intros _.
  unfold title_case_names. cbn [index columns]. split; [|split; [reflexivity|]].
  - f_equal. rewrite map_map. apply map_ext. intros c.
    destruct (is_object c && name_like (name c)) eqn:Hc.
    + unfold is_object in *. cbn [with_values name dtype_of]. rewrite Hc.
      unfold with_values. cbn [name dtype_of values]. f_equal.
      apply str_map_idempotent. intros s. apply title_from_idempotent.
    + now rewrite Hc.
  - rewrite !map_map. repeat split; apply map_ext; intros c;
      destruct (is_object c && name_like (name c)); try reflexivity.
    unfold with_values, str_map. cbn [values]. now rewrite length_map.
Qed.

Lemma title_case_names_idempotent_witness :
  ascii_text_columns people = true
  /\ title_case_names (title_case_names people) = title_case_names people.
Proof.
  split; [reflexivity|].
  destruct (title_case_names_idempotent people eq_refl) as (H & _).
  exact H.
Defined.

(** ** Drop Empty Rows *)

Lemma rows_dropna_all (t : DataFrame) :
  aligned t ->
  rows (dropna_all t)
  = List.filter (existsb (fun c => negb (isnull c))) (rows t).
Proof.
  intros Hal. unfold dropna_all.
  rewrite rows_select_rows; [apply bool_index_map_filter|exact Hal|].
  now rewrite length_map, rows_length.
Qed.

Lemma filter_all_true {A} (f : A -> bool) (l : list A) :
  Forall (fun b => b = true) (map f (List.filter f l)).
Proof.
  apply Forall_map, Forall_forall. intros x Hx.
  now apply filter_In in Hx.
Qed.

(** X3. Dropping empty rows keeps, in order, exactly the rows with at least
    one cell that is not missing; no row of the result is all missing, and
    dropping again changes nothing. *)
Theorem dropna_all_keeps_nonempty_rows (t : DataFrame) :
  aligned t ->
  rows (dropna_all t)
  = List.filter (existsb (fun c => negb (isnull c))) (rows t)
  /\ Forall (fun r => forallb isnull r = false) (rows (dropna_all t))
  /\ dropna_all (dropna_all t) = dropna_all t
  /\ (len (dropna_all t) <= len t)%nat.
Proof.
  intros Hal. pose proof (rows_dropna_all t Hal) as Hrows.
  assert (Hal' : aligned (dropna_all t)) by now apply aligned_select_rows.
  split; [exact Hrows|]. split; [|split].
  - rewrite Hrows. apply Forall_forall. intros r Hr.
    apply filter_In in Hr as [_ Hr].
    destruct (forallb isnull r) eqn:Hall; [|reflexivity].
    rewrite forallb_forall in Hall. apply existsb_exists in Hr as (c & Hc & Hn).
    rewrite (Hall c Hc) in Hn. discriminate.
  - unfold dropna_all at 1. apply select_rows_all; [exact Hal'| |].
    + now rewrite length_map, rows_length.
    + rewrite Hrows. apply filter_all_true.
  - rewrite <- !rows_length, Hrows. apply filter_length_le.
Qed.

Lemma dropna_all_keeps_nonempty_rows_witness :
  rows (dropna_all six_blank_rows) = []
  /\ dropna_all (dropna_all six_blank_rows) = dropna_all six_blank_rows.
Proof.
  assert (Hal : aligned six_blank_rows) by (repeat constructor).
  destruct (dropna_all_keeps_nonempty_rows six_blank_rows Hal) as (H1 & _ & H3 & _).
  split; [rewrite H1; reflexivity|exact H3].
Defined.

(** ** The duplicate count and Remove Duplicates *)

Lemma count_true_negb (mask : list bool) :
  (count_true mask + count_true (map negb mask) = List.length mask)%nat.
Proof.
  unfold count_true. induction mask as [|[] mask IH]; simpl; lia.
Qed.

(** X4. The number of duplicates the audit shows is the number of rows that
    Remove Duplicates takes away. *)
Theorem duplicates_are_the_rows_removed (t : DataFrame) :
  (count_true (duplicated t) + len (drop_duplicates t) = len t)%nat.
Proof.
  unfold drop_duplicates, duplicated. destruct (empty t); [reflexivity|].
  unfold len at 1. cbn [select_rows index].
  rewrite bool_index_length.
  - rewrite count_true_negb. now rewrite seen_before_length, rows_length.
  - rewrite length_map, seen_before_length, rows_length. reflexivity.
Qed.

(** ** The cleaning job as a whole *)

Lemma bool_index_length_le {A} (mask : list bool) (l : list A) :
  (List.length (bool_index mask l) <= List.length l)%nat.
Proof.
  revert l. induction mask as [|b mask IH]; intros [|x l]; simpl; try lia.
  specialize (IH l). destruct b; simpl; lia.
Qed.

Lemma len_select_rows (mask : list bool) (t : DataFrame) :
  (len (select_rows mask t) <= len t)%nat.
Proof. apply bool_index_length_le. Qed.

Lemma names_select_rows (mask : list bool) (t : DataFrame) :
  map name (columns (select_rows mask t)) = map name (columns t).
Proof. unfold select_rows. cbn [columns]. now rewrite map_map. Qed.

Lemma structure_and_formatting_shape (cfg : config) (t : DataFrame) :
  (len (structure_and_formatting cfg t) <= len t)%nat
  /\ map name (columns (structure_and_formatting cfg t)) = map name (columns t).
Proof.
  unfold structure_and_formatting.
  assert (H1 : (len (if chk_duplicates cfg then drop_duplicates t else t) <= len t)%nat
               /\ map name (columns (if chk_duplicates cfg then drop_duplicates t else t))
                  = map name (columns t)).
  { destruct (chk_duplicates cfg); [|auto]. unfold drop_duplicates.
    destruct (empty t); [auto|].
    split; [apply len_select_rows|apply names_select_rows]. }
  revert H1. generalize (if chk_duplicates cfg then drop_duplicates t else t).
  intros t1 [L1 N1].
  assert (H2 : (len (if chk_empty_rows cfg then dropna_all t1 else t1) <= len t)%nat
               /\ map name (columns (if chk_empty_rows cfg then dropna_all t1 else t1))
                  = map name (columns t)).
  { destruct (chk_empty_rows cfg); [|auto]. unfold dropna_all.
    split; [|now rewrite names_select_rows].
    eapply Nat.le_trans; [apply len_select_rows|exact L1]. }
  revert H2. generalize (if chk_empty_rows cfg then dropna_all t1 else t1).
  intros t2 [L2 N2].
  assert (H3 : (len (if chk_trim cfg then trim_whitespace t2 else t2) <= len t)%nat
               /\ map name (columns (if chk_trim cfg then trim_whitespace t2 else t2))
                  = map name (columns t)).
  { destruct (chk_trim cfg); [|auto]. split; [exact L2|].
    rewrite <- N2. unfold trim_whitespace. cbn [columns]. rewrite map_map.
    apply map_ext. intros c. destruct (is_object c); reflexivity. }
  revert H3. generalize (if chk_trim cfg then trim_whitespace t2 else t2).
  intros t3 [L3 N3].
  destruct (chk_title_case cfg); [|auto]. split; [exact L3|].
  rewrite <- N3. unfold title_case_names. cbn [columns]. rewrite map_map.
  apply map_ext. intros c. destruct (is_object c && name_like (name c)); reflexivity.
Qed.

Lemma getitem_found (t : DataFrame) (col : string) :
  (In col (map name (columns t)) /\ exists c, getitem t col = Ok c /\ name c = col)
  \/ (~ In col (map name (columns t)) /\ getitem t col = Raise (KeyError col)).
Proof.
  unfold getitem.
  destruct (List.find (fun c => bool_decide (name c = col)) (columns t)) as [c|] eqn:Hf.
  - left. apply find_some in Hf as [Hin Hname].
    apply bool_decide_eq_true_1 in Hname. split; [|eauto].
    rewrite <- Hname. now apply in_map.
  - right. split; [|reflexivity]. intros Hin.
    apply in_map_iff in Hin as (c & Hname & Hin).
    pose proof (find_none _ _ Hf c Hin) as Hc. cbn beta in Hc.
    apply bool_decide_eq_false_1 in Hc. contradiction.
Qed.

Lemma aligned_getitem_applied (key : list bool) (t : DataFrame) :
  aligned t -> aligned (getitem_applied key t).
Proof.
  intros H. destruct key; [constructor|now apply aligned_select_rows].
Qed.

(** X5. Whatever the configuration, a successful job never adds rows, and
    it turns a table whose columns are aligned with its rows into another
    such table. *)
Theorem clean_never_adds_rows (cfg : config) (t out : DataFrame) :
  clean cfg t = Ok out ->
  (len out <= len t)%nat /\ (aligned t -> aligned out).
Proof.
  rewrite clean_steps. intros Hclean.
  destruct (structure_and_formatting_shape cfg t) as [Hlen _].
  pose proof (aligned_structure_and_formatting cfg t) as Hal.
  destruct (email_step_runs cfg).
  - unfold filter_emails in Hclean.
    destruct (getitem (structure_and_formatting cfg t) (email_col cfg)) as [c|e];
      [|discriminate].
    cbn [bind] in Hclean. injection Hclean as <-. split.
    + eapply Nat.le_trans; [|exact Hlen].
      unfold getitem_applied. destruct (apply is_valid_email c);
        [apply Nat.le_refl|apply len_select_rows].
    + intros H. now apply aligned_getitem_applied, Hal.
  - injection Hclean as <-. split; [exact Hlen|exact Hal].
Qed.

Lemma clean_never_adds_rows_witness :
  (len subscribers_valid <= len subscribers)%nat.
Proof.
  apply (clean_never_adds_rows (only_email_check "email") subscribers subscribers_valid).
  reflexivity.
Defined.

(** X6. On a table whose text columns hold ASCII texts and missing values
    wherever a text step is enabled: when the e-mail step runs, the job
    raises [KeyError] for the selected column exactly when the uploaded
    table has no column of that name, and succeeds otherwise. *)
Theorem clean_key_error (cfg : config) (t : DataFrame) :
  text_steps_on_ascii cfg t = true ->
  (email_step_runs cfg = true
   /\ ~ In (email_col cfg) (map name (columns t))
   /\ clean cfg t = Raise (KeyError (email_col cfg)))
  \/ ((email_step_runs cfg = false \/ In (email_col cfg) (map name (columns t)))
      /\ exists out, clean cfg t = Ok out).
Proof.
  intros _. rewrite clean_steps.
  destruct (structure_and_formatting_shape cfg t) as [_ Hnames].
  destruct (email_step_runs cfg); [|right; split; [left; reflexivity|eauto]].
  unfold filter_emails.
  destruct (getitem_found (structure_and_formatting cfg t) (email_col cfg))
    as [[Hin (c & Hget & _)]|[Hnot Hget]]; rewrite Hget; cbn [bind].
  - right. rewrite Hnames in Hin. split; [right; exact Hin|eauto].
  - left. rewrite Hnames in Hnot. auto.
Qed.

Lemma clean_key_error_witness :
  text_steps_on_ascii (only_email_check "email") contacts = true
  /\ clean (only_email_check "email") contacts = Raise (KeyError "email").
Proof.
  split; [reflexivity|].
  destruct (clean_key_error (only_email_check "email") contacts eq_refl)
    as [(_ & _ & H)|(_ & out & H)]; [exact H|discriminate H].
Defined.

(** ** What [is_valid_email] accepts *)

Lemma count_char_app (c : ascii) (a b : string) :
  count_char c (a ++ b) = (count_char c a + count_char c b)%nat.
Proof. induction a as [|x a IH]; simpl; [reflexivity|]. rewrite IH. lia. Qed.

Lemma count_char_outside (cls : ascii -> bool) (c : ascii) (s : string) :
  cls c = false -> Spec.all_in cls s -> count_char c s = 0%nat.
Proof.
  intros Hc. unfold Spec.all_in. induction s as [|x s IH]; simpl; [reflexivity|].
  intros H. apply andb_prop in H as [Hx Hs]. rewrite (IH Hs).
  destruct (Ascii.eqb_spec x c) as [->|_]; [congruence|reflexivity].
Qed.

Lemma accepted_text_one_at (s : string) :
  Re.re_match pattern s = true -> count_char "@" s = 1%nat.
Proof.
  intros H.
  apply re_match_pattern_iff in H
    as (l & d & t & tail & -> & Hl & Hal & Hd & Had & Ht & Hat & Htail).
  assert (Ta : count_char "@" tail = 0%nat)
    by (destruct Htail as [-> | ->]; reflexivity).
  rewrite !count_char_app, Ta.
  rewrite (count_char_outside local_class "@" l eq_refl Hal),
          (count_char_outside domain_class "@" d eq_refl Had),
          (count_char_outside PyStr.is_alpha "@" t eq_refl Hat).
  reflexivity.
Qed.

(** X7. A text the validator accepts contains exactly one "@" and no space,
    and its first character is a letter, a digit or one of "._%+-". *)
Theorem is_valid_email_one_at (s : string) :
  is_valid_email (CStr s) = true ->
  count_char "@" s = 1%nat /\ count_char " " s = 0%nat
  /\ exists c rest, s = String c rest /\ local_class c = true.
Proof.
  unfold is_valid_email. cbn [py_str]. intros H.
  split; [now apply accepted_text_one_at|].
  apply re_match_pattern_iff in H
    as (l & d & t & tail & -> & Hl & Hal & Hd & Had & Ht & Hat & Htail).
  assert (Ts : count_char " " tail = 0%nat)
    by (destruct Htail as [-> | ->]; reflexivity).
  split.
  - rewrite !count_char_app, Ts.
    rewrite (count_char_outside local_class " " l eq_refl Hal),
            (count_char_outside domain_class " " d eq_refl Had),
            (count_char_outside PyStr.is_alpha " " t eq_refl Hat).
    reflexivity.
  - destruct l as [|c l]; [congruence|].
    exists c, (l ++ "@" ++ d ++ "." ++ t ++ tail). split; [reflexivity|].
    unfold Spec.all_in in Hal. simpl in Hal.
    now apply andb_prop in Hal as [Hc _].
Qed.

Lemma is_valid_email_one_at_witness :
  count_char "@" "x@y.co" = 1%nat /\ count_char " " "x@y.co" = 0%nat.
Proof.
  destruct (is_valid_email_one_at "x@y.co" eq_refl) as (H1 & H2 & _).
  split; assumption.
Defined.

Lemma string_of_uint_no_at (d : Decimal.uint) :
  count_char "@" (NilEmpty.string_of_uint d) = 0%nat.
Proof. induction d; simpl; auto. Qed.

Lemma str_of_int_no_at (z : Z) : count_char "@" (PyStr.str_of_int z) = 0%nat.
Proof.
  unfold PyStr.str_of_int, NilZero.string_of_int, NilZero.string_of_uint.
  destruct (Z.to_int z) as [d|d]; destruct d; simpl;
    auto using string_of_uint_no_at.
Qed.

(** X8. The validator rejects every missing cell and every number, so the
    e-mail step applied to a numeric column keeps no row. *)
Theorem is_valid_email_rejects_non_text (c : cell) :
  (forall s, c <> CStr s) -> is_valid_email c = false.
Proof.
  intros Hc. destruct c as [|s|z].
  - reflexivity.
  - now destruct (Hc s).
  - destruct (is_valid_email (CInt z)) eqn:Hv; [|reflexivity].
    apply accepted_text_one_at in Hv. cbn [py_str] in Hv.
    rewrite str_of_int_no_at in Hv. discriminate.
Qed.

Lemma is_valid_email_rejects_non_text_witness : is_valid_email (CInt 2024) = false.
Proof.
  apply is_valid_email_rejects_non_text. intros s. discriminate.
Defined.

(** ** More on the score *)

Lemma penalty_zero_count (total : Z) :
  total < 2 ^ 53 -> penalty 0 total = S754_zero false.
Proof.
  intros Ht. unfold penalty. destruct (total >? 0) eqn:Hpos; [|reflexivity].
  apply Z.gtb_lt in Hpos.
  destruct (of_int_exact total) as (m & e & -> & _); [lia|]. reflexivity.
Qed.

(** X9. A table without missing cells and without duplicate rows scores
    100. *)
Theorem calculate_quality_score_clean_table (df : DataFrame) :
  Z.of_nat (len df) < 2 ^ 53 -> Z.of_nat (size df) < 2 ^ 53 ->
  isnull_sum_sum df = 0%nat -> count_true (duplicated df) = 0%nat ->
  calculate_quality_score df = Ok 100.
Proof.
  intros Hrows Hcells Hmissing Hdup.
  rewrite calculate_quality_score_counts, Hmissing, Hdup.
  unfold score_of_counts. cbn [Z.of_nat].
  rewrite !penalty_zero_count by assumption. reflexivity.
Qed.

Lemma calculate_quality_score_clean_table_witness :
  calculate_quality_score contacts = Ok 100.
Proof.
  apply calculate_quality_score_clean_table; reflexivity.
Defined.

Lemma set_columns_map_values (names : list string) (t : DataFrame) :
  List.length names = List.length (columns t) ->
  map values (columns (set_columns names t)) = map values (columns t).
Proof.
  unfold set_columns. cbn [columns]. generalize (columns t) as cs.
  induction names as [|n names IH]; intros [|c cs] H; simpl in *;
    try reflexivity; try discriminate.
  injection H as H. now rewrite IH.
Qed.

(** X10. Renaming the columns for export leaves every number of the audit
    as it is: the score, the duplicate count, the missing count and the
    column count. *)
Theorem health_audit_after_format_columns (platform : string) (t : DataFrame) :
  score (health_audit (format_columns platform t)) = score (health_audit t)
  /\ duplicates (health_audit (format_columns platform t))
     = duplicates (health_audit t)
  /\ missing_values (health_audit (format_columns platform t))
     = missing_values (health_audit t)
  /\ n_columns (health_audit (format_columns platform t))
     = n_columns (health_audit t)
  /\ map snd (missing_per_column (health_audit (format_columns platform t)))
     = map snd (missing_per_column (health_audit t)).
Proof.
  unfold format_columns.
  destruct (bool_decide (platform = "Salesforce Compatible")); [|repeat split].
  set (t' := set_columns (map (fun c => snake_case (name c)) (columns t)) t).
  assert (Hvalues : map values (columns t') = map values (columns t))
    by (apply set_columns_map_values; now rewrite length_map).
  assert (Hshape : shape1 t' = shape1 t).
  { unfold shape1. rewrite <- (length_map values (columns t')), Hvalues.
    now rewrite length_map. }
  assert (Hlen : len t' = len t) by reflexivity.
  assert (Hrows : rows t' = rows t) by (unfold rows; now rewrite Hvalues, Hlen).
  assert (Hdup : duplicated t' = duplicated t)
    by (unfold duplicated, empty; now rewrite Hrows, Hshape, Hlen).
  assert (Hper : map snd (isnull_sum t') = map snd (isnull_sum t)).
  { unfold isnull_sum. rewrite !map_map. cbn [snd].
    rewrite <- (map_map values (fun v => count_true (map isnull v)) (columns t')),
            <- (map_map values (fun v => count_true (map isnull v)) (columns t)).
    now rewrite Hvalues. }
  assert (Hmissing : isnull_sum_sum t' = isnull_sum_sum t)
    by (unfold isnull_sum_sum; now rewrite Hper).
  unfold health_audit.
  cbn [score duplicates missing_values n_columns missing_per_column].
  rewrite !calculate_quality_score_counts.
  unfold size. rewrite Hdup, Hmissing, Hshape, Hlen, Hper. repeat split.
Qed.

(** ** [clean_phone] *)

Lemma sub_empty_outside (cls : ascii -> bool) (s : string) :
  Spec.all_in (fun c => negb (cls c)) (Re.sub_empty cls s).
Proof.
  unfold Spec.all_in. induction s as [|c s IH]; simpl; [reflexivity|].
  destruct (cls c) eqn:Hc; [exact IH|]. simpl. now rewrite Hc.
Qed.

Lemma sub_empty_fixed (cls : ascii -> bool) (s : string) :
  Spec.all_in (fun c => negb (cls c)) s -> Re.sub_empty cls s = s.
Proof.
  unfold Spec.all_in. induction s as [|c s IH]; simpl; [reflexivity|].
  intros H. apply andb_prop in H as [Hc Hs].
  destruct (cls c); [discriminate|]. now rewrite IH.
Qed.

Lemma sub_empty_count (cls : ascii -> bool) (c : ascii) (s : string) :
  cls c = false -> count_char c (Re.sub_empty cls s) = count_char c s.
Proof.
  intros Hc. induction s as [|x s IH]; simpl; [reflexivity|].
  destruct (cls x) eqn:Hx; simpl; rewrite IH; [|reflexivity].
  destruct (Ascii.eqb_spec x c) as [->|_]; [congruence|reflexivity].
Qed.

Lemma all_in_ext (f g : ascii -> bool) (s : string) :
  (forall c, f c = g c) -> Spec.all_in f s -> Spec.all_in g s.
Proof.
  intros Hfg. unfold Spec.all_in. induction s as [|c s IH]; simpl; [auto|].
  intros H. apply andb_prop in H as [Hc Hs]. now rewrite <- Hfg, Hc, IH.
Qed.

Lemma sub_empty_non_digit (s : string) :
  Spec.all_in PyStr.is_digit (Re.sub_empty non_digit s)
  /\ (forall c, PyStr.is_digit c = true ->
                count_char c (Re.sub_empty non_digit s) = count_char c s)
  /\ Re.sub_empty non_digit (Re.sub_empty non_digit s) = Re.sub_empty non_digit s.
Proof.
  pose proof (sub_empty_outside non_digit s) as Hout. split; [|split].
  - eapply all_in_ext; [|exact Hout]. intros c. unfold non_digit.
    apply negb_involutive.
  - intros c Hc. apply sub_empty_count. unfold non_digit. now rewrite Hc.
  - now apply sub_empty_fixed.
Qed.

(** X11. [clean_phone] returns a missing value as it is and turns an ASCII
    text or a whole number into a text of the digits 0-9 only, in which
    every digit occurs as often as in the rendering of its argument;
    cleaning a cleaned value changes nothing. *)
Theorem clean_phone_digits (phone : cell) :
  (forall s : string, phone = CStr s -> is_ascii s = true) ->
  (phone = CNaN /\ clean_phone phone = CNaN)
  \/ (phone <> CNaN
      /\ exists digits : string,
           clean_phone phone = CStr digits
           /\ Spec.all_in PyStr.is_digit digits
           /\ (forall c, PyStr.is_digit c = true ->
                         count_char c digits = count_char c (py_str phone))
           /\ clean_phone (CStr digits) = CStr digits).
Proof.
  intros _.
  destruct phone as [|s|z]; [left; split; reflexivity| |];
    right; (split; [discriminate|]); eexists; (split; [reflexivity|]);
    cbn [py_str];
    match goal with
    | |- context [Re.sub_empty non_digit ?x] =>
        destruct (sub_empty_non_digit x) as (Hd & Hc & Hi)
    end;
    (split; [exact Hd|]); (split; [exact Hc|]);
    unfold clean_phone; cbn [isnull py_str]; now rewrite Hi.
Qed.

Lemma clean_phone_digits_witness :
  is_ascii "(555) 010-9999" = true
  /\ clean_phone (CStr "(555) 010-9999") = CStr "5550109999".
Proof.
  split; [reflexivity|].
  destruct (clean_phone_digits (CStr "(555) 010-9999"))
    as [[H _]|(_ & digits & H & _)].
  - intros s Hs. injection Hs as <-. reflexivity.
  - discriminate H.
  - reflexivity.
Defined.

(** ** The upload and the session *)

Lemma fresh_not_in (h : gmap loc DataFrame) : h !! fresh (dom h) = None.
Proof. apply not_elem_of_dom, is_fresh. Qed.

(** X12. When the session already holds a cleaned frame for a file of the
    same name, loading leaves the session as it is, whatever the file now
    contains: only a new object for the upload is created. *)
Theorem load_same_name_keeps_session (file_name : string) (parsed : DataFrame)
    (w : world) (v : pyval) :
  session_state w !! "cleaned_df" = Some v ->
  session_state w !! "last_file" = Some (VStr file_name) ->
  exists df,
    load file_name parsed w
    = Ok (df, {| heap := <[df := parsed]> (heap w);
                 session_state := session_state w |})
    /\ heap w !! df = None.
Proof.
  intros Hc Hf. exists (fresh (dom (heap w))). split; [|apply fresh_not_in].
  unfold load, mbind, M_bind, new_obj, session_get. cbn [session_state heap].
  rewrite Hc, Hf.
  rewrite bool_decide_eq_false_2 by discriminate.
  rewrite bool_decide_eq_true_2 by reflexivity. reflexivity.
Qed.

Lemma load_same_name_keeps_session_witness :
  exists df w',
    load "contacts.csv" ten_cells session_of_contacts_csv = Ok (df, w')
    /\ session_state w' !! "cleaned_df" = Some (VFrame 1%positive).
Proof.
  assert (Hc : session_state session_of_contacts_csv !! "cleaned_df"
               = Some (VFrame 1%positive)) by (vm_compute; reflexivity).
  assert (Hf : session_state session_of_contacts_csv !! "last_file"
               = Some (VStr "contacts.csv")) by (vm_compute; reflexivity).
  destruct (load_same_name_keeps_session "contacts.csv" ten_cells
              session_of_contacts_csv (VFrame 1%positive) Hc Hf)
    as (df & Hload & _).
  exists df. eexists. split; [exact Hload|exact Hc].
Defined.

(** X13. For a first upload, or a file of another name, loading stores in
    the session a copy of the uploaded table: a new object, distinct from
    the upload's own, holding the same table, under the new file name. *)
Theorem load_new_file_copies (file_name : string) (parsed : DataFrame) (w : world) :
  session_state w !! "cleaned_df" = None
  \/ session_state w !! "last_file" <> Some (VStr file_name) ->
  exists df copy w',
    load file_name parsed w = Ok (df, w')
    /\ df <> copy
    /\ heap w !! df = None /\ heap w !! copy = None
    /\ heap w' !! df = Some parsed /\ heap w' !! copy = Some parsed
    /\ session_state w' !! "cleaned_df" = Some (VFrame copy)
    /\ session_state w' !! "last_file" = Some (VStr file_name)
    /\ (forall l, is_Some (heap w !! l) -> heap w' !! l = heap w !! l).
Proof.
  intros Hnew.
  set (df := fresh (dom (heap w))).
  set (h1 := <[df := parsed]> (heap w)).
  set (copy := fresh (dom h1)).
  assert (Hdf : heap w !! df = None) by apply fresh_not_in.
  assert (Hcopy1 : h1 !! copy = None) by apply fresh_not_in.
  assert (Hne : df <> copy).
  { intros Heq. rewrite <- Heq in Hcopy1. unfold h1 in Hcopy1.
    rewrite lookup_insert_eq in Hcopy1. discriminate. }
  assert (Hcopy : heap w !! copy = None).
  { unfold h1 in Hcopy1. now rewrite lookup_insert_ne in Hcopy1. }
  exists df, copy.
  exists {| heap := <[copy := parsed]> h1;
            session_state := <["last_file" := VStr file_name]>
                               (<["cleaned_df" := VFrame copy]> (session_state w)) |}.
  split.
  - unfold load, mbind, M_bind, new_obj, session_get. cbn [session_state heap].
    fold df. fold h1.
    assert (Hcond : bool_decide (session_state w !! "cleaned_df" = None)
                    || negb (bool_decide (session_state w !! "last_file"
                                          = Some (VStr file_name))) = true).
    { destruct Hnew as [H|H].
      - now rewrite bool_decide_eq_true_2.
      - rewrite (bool_decide_eq_false_2 _ H). apply orb_true_r. }
    rewrite Hcond. cbn [when]. unfold deref, session_set, mbind, M_bind.
    cbn [heap session_state]. unfold h1 at 1. rewrite lookup_insert_eq.
    fold h1. fold copy. reflexivity.
  - cbn [heap session_state]. repeat split; try assumption.
    + rewrite lookup_insert_ne by (intros Heq; now apply Hne).
      unfold h1. apply lookup_insert_eq.
    + apply lookup_insert_eq.
    + rewrite lookup_insert_ne by discriminate. apply lookup_insert_eq.
    + apply lookup_insert_eq.
    + intros l [x Hx]. rewrite lookup_insert_ne by congruence.
      unfold h1. rewrite lookup_insert_ne by congruence. reflexivity.
Qed.

Lemma load_new_file_copies_witness :
  exists df copy w',
    load "contacts.csv" contacts {| heap := ∅; session_state := ∅ |} = Ok (df, w')
    /\ df <> copy
    /\ session_state w' !! "cleaned_df" = Some (VFrame copy).
Proof.
  assert (Hnew : session_state {| heap := ∅; session_state := ∅ |} !! "cleaned_df"
                 = None
                 \/ session_state {| heap := ∅; session_state := ∅ |} !! "last_file"
                    <> Some (VStr "contacts.csv"))
    by (left; vm_compute; reflexivity).
  destruct (load_new_file_copies "contacts.csv" contacts
              {| heap := ∅; session_state := ∅ |} Hnew)
    as (df & copy & w' & H1 & H2 & _ & _ & _ & _ & H3 & _).
  exists df, copy, w'. repeat split; assumption.
Defined.

(** ** More on the export block *)

Lemma snake_char (c : ascii) :
  let f := fun c => if Ascii.eqb (PyStr.lower_char c) " " then "_"%char
                    else PyStr.lower_char c in
  f (f c) = f c /\ PyStr.is_upper (f c) = false /\ Ascii.eqb (f c) " " = false.
Proof.
  destruct c as [[] [] [] [] [] [] [] []]; vm_compute; repeat split.
Qed.

Lemma snake_case_map (s : string) :
  snake_case s
  = PyStr.map_chars (fun c => if Ascii.eqb (PyStr.lower_char c) " " then "_"%char
                              else PyStr.lower_char c) s.
Proof.
  unfold snake_case, PyStr.replace, PyStr.lower.
  induction s as [|c s IH]; simpl; [reflexivity|]. now rewrite IH.
Qed.

Lemma snake_case_idempotent (s : string) :
  snake_case (snake_case s) = snake_case s
  /\ Spec.all_in (fun c => negb (PyStr.is_upper c) && negb (Ascii.eqb c " "))
                 (snake_case s).
Proof.
  rewrite !snake_case_map. unfold Spec.all_in.
  induction s as [|c s [IH1 IH2]]; simpl; [split; reflexivity|].
  destruct (snake_char c) as (H1 & H2 & H3). cbv zeta in H1, H2, H3.
  rewrite H1, H2, H3, IH1, IH2. split; reflexivity.
Qed.

(** X14. On a table whose column names are ASCII texts, after the
    Salesforce renaming no column name contains a space or one of the
    letters A-Z, the names are ASCII texts again, the renaming keeps the
    number and order of the columns, and renaming again changes nothing. *)
Theorem format_columns_salesforce_idempotent (t : DataFrame) :
  ascii_names t = true ->
  format_columns "Salesforce Compatible" (format_columns "Salesforce Compatible" t)
  = format_columns "Salesforce Compatible" t
  /\ Forall (fun n => Spec.all_in (fun c => negb (PyStr.is_upper c)
                                            && negb (Ascii.eqb c " ")) n)
            (map name (columns (format_columns "Salesforce Compatible" t)))
  /\ List.length (columns (format_columns "Salesforce Compatible" t))
     = List.length (columns t)
  /\ ascii_names (format_columns "Salesforce Compatible" t) = true.
Proof.
  intros Ht.
  assert (Hsf : forall x, format_columns "Salesforce Compatible" x
                = set_columns (map (fun c => snake_case (name c)) (columns x)) x)
    by reflexivity.
  rewrite !Hsf. unfold set_columns, ascii_names in *. cbn [index columns].
  split; [|split; [|split]].
  - clear Ht. f_equal. induction (columns t) as [|c cs IH]; simpl; [reflexivity|].
    simpl in IH. rewrite IH. f_equal. f_equal. apply snake_case_idempotent.
  - clear Ht. induction (columns t) as [|c cs IH]; simpl; constructor; [|exact IH].
    apply snake_case_idempotent.
  - clear Ht. induction (columns t) as [|c cs IH]; simpl; [reflexivity|now rewrite IH].
  - induction (columns t) as [|c cs IH]; [reflexivity|].
    cbn [map combine forallb name] in *. apply andb_prop in Ht as [Hc Hcs].
    now rewrite (snake_case_ascii _ Hc), (IH Hcs).
Qed.

Lemma format_columns_salesforce_idempotent_witness :
  ascii_names contacts = true
  /\ format_columns "Salesforce Compatible"
       (format_columns "Salesforce Compatible" contacts)
     = format_columns "Salesforce Compatible" contacts.
Proof.
  split; [reflexivity|].
  destruct (format_columns_salesforce_idempotent contacts eq_refl) as (H & _).
  exact H.
Defined.

(** ** What the job leaves in the session *)

(** X15. On an uploaded table whose text columns hold ASCII texts and
    missing values wherever a text step is enabled: a job that succeeds
    stores its table in a new object, records a reference to it under
    "cleaned_df" and sets "cleaning_complete", while the uploaded frame
    keeps its content; a job whose e-mail step fails raises the same
    exception. *)
Theorem run_cleaning_job_session (cfg : config) (df : loc) (w : world)
    (t : DataFrame) :
  heap w !! df = Some t ->
  text_steps_on_ascii cfg t = true ->
  match clean cfg t with
  | Ok t' =>
      exists out w',
        run_cleaning_job cfg df w = Ok (out, w')
        /\ out <> df /\ heap w !! out = None
        /\ heap w' !! out = Some t'
        /\ heap w' !! df = Some t
        /\ session_state w' !! "cleaned_df" = Some (VFrame out)
        /\ session_state w' !! "cleaning_complete" = Some (VBool true)
  | Raise e => run_cleaning_job cfg df w = Raise e
  end.
Proof.
  intros Ht _. pose proof (run_cleaning_job_clean cfg df w t Ht) as Hrun.
  cbv zeta in Hrun. rewrite clean_steps in *.
  set (l1 := fresh (dom (heap w))) in *.
  set (h1 := <[l1 := structure_and_formatting cfg t]> (heap w)) in *.
  set (l2 := fresh (dom h1)) in *.
  assert (Hl1 : heap w !! l1 = None) by apply fresh_not_in.
  assert (Hl2 : h1 !! l2 = None) by apply fresh_not_in.
  assert (Hne1 : l1 <> df) by congruence.
  assert (Hdf1 : h1 !! df = Some t)
    by (unfold h1; now rewrite lookup_insert_ne).
  assert (Hne2 : l2 <> df) by congruence.
  assert (Hl2' : heap w !! l2 = None).
  { destruct (decide (l1 = l2)) as [<-|Hne]; [exact Hl1|].
    unfold h1 in Hl2. now rewrite lookup_insert_ne in Hl2. }
  assert (Hss : forall l ss,
             after_job l ss !! "cleaned_df" = Some (VFrame l)
             /\ after_job l ss !! "cleaning_complete" = Some (VBool true)).
  { intros l ss. unfold after_job. split.
    - rewrite lookup_insert_ne by discriminate. apply lookup_insert_eq.
    - apply lookup_insert_eq. }
  destruct (email_step_runs cfg).
  - destruct (filter_emails (email_col cfg) (structure_and_formatting cfg t))
      as [t'|e]; [|exact Hrun].
    eexists. eexists. split; [exact Hrun|]. cbn [heap session_state].
    split; [exact Hne2|]. split; [exact Hl2'|]. split; [apply lookup_insert_eq|].
    split; [now rewrite lookup_insert_ne|apply Hss].
  - eexists. eexists. split; [exact Hrun|]. cbn [heap session_state].
    split; [exact Hne1|]. split; [exact Hl1|]. split; [apply lookup_insert_eq|].
    split; [exact Hdf1|apply Hss].
Qed.

Lemma run_cleaning_job_session_witness :
  exists out w',
    run_cleaning_job only_remove_duplicates 1%positive session_with_contacts
    = Ok (out, w')
    /\ session_state w' !! "cleaned_df" = Some (VFrame out).
Proof.
  assert (Ht : heap session_with_contacts !! 1%positive = Some contacts)
    by (vm_compute; reflexivity).
  pose proof (run_cleaning_job_session only_remove_duplicates 1%positive
                session_with_contacts contacts Ht eq_refl) as H.
  assert (Hclean : clean only_remove_duplicates contacts
                   = Ok (drop_duplicates contacts)) by reflexivity.
  rewrite Hclean in H.
  destruct H as (out & w' & H1 & _ & _ & _ & _ & H2 & _).
  exists out, w'. split; assumption.
Defined.

(** ** The export block and the job, over objects *)

(** X16. The export block hands out the session's own frame, holding the
    table renamed for the platform; it creates no object, leaves every other
    object and the session entries as they are, and for a platform other
    than "Salesforce Compatible" changes nothing at all. *)
Theorem export_tools_returns_session_frame (platform : string) (w : world)
    (l : loc) (t : DataFrame) :
  session_state w !! "cleaned_df" = Some (VFrame l) ->
  heap w !! l = Some t ->
  exists w',
    export_tools platform w = Ok (l, w')
    /\ session_state w' = session_state w
    /\ heap w' !! l = Some (format_columns platform t)
    /\ (forall l', l' <> l -> heap w' !! l' = heap w !! l')
    /\ (bool_decide (platform = "Salesforce Compatible") = false -> w' = w).
Proof.
  intros Hs Ht. rewrite (export_tools_in_place platform w l t Hs Ht).
  eexists. split; [reflexivity|]. cbn [heap session_state].
  split; [reflexivity|]. unfold format_columns.
  destruct (bool_decide (platform = "Salesforce Compatible")).
  - split; [apply lookup_insert_eq|]. split; [|discriminate].
    intros l' Hne. now rewrite lookup_insert_ne.
  - split; [exact Ht|]. split; [reflexivity|]. intros _. now destruct w.
Qed.

Lemma export_tools_returns_session_frame_witness :
  exists w',
    export_tools "HubSpot Import" session_with_contacts = Ok (1%positive, w')
    /\ heap w' !! 1%positive = Some (format_columns "HubSpot Import" contacts).
Proof.
  assert (Hs : session_state session_with_contacts !! "cleaned_df"
               = Some (VFrame 1%positive)) by (vm_compute; reflexivity).
  assert (Ht : heap session_with_contacts !! 1%positive = Some contacts)
    by (vm_compute; reflexivity).
  destruct (export_tools_returns_session_frame "HubSpot Import"
              session_with_contacts 1%positive contacts Hs Ht)
    as (w' & H1 & _ & H2 & _).
  exists w'. split; assumption.
Defined.

(** X18. The validator accepts a text exactly when it is local@domain.tld
    (one or more of letters, digits and "._%+-", then "@", then one or more
    of letters, digits and ".-", then ".", then two or more letters),
    possibly followed by one line feed. *)
Theorem is_valid_email_text_iff (s : string) :
  is_valid_email (CStr s) = true
  <-> Spec.email_shape s \/ exists s0, Spec.email_shape s0 /\ s = s0 ++ LF.
Proof.
  unfold is_valid_email, LF. cbn [py_str].
  rewrite re_match_pattern_iff. unfold Spec.email_shape. split.
  - intros (l & d & t & tail & Hs & Hl & Hal & Hd & Had & Ht & Hat & [->| ->]).
    + left. exists l, d, t. rewrite append_empty_r in Hs. tauto.
    + right. exists (l ++ "@" ++ d ++ "." ++ t). split.
      * exists l, d, t. tauto.
      * rewrite Hs, !append_assoc. reflexivity.
  - intros [(l & d & t & Hs & H)|(s0 & (l & d & t & Hs0 & H) & Hs)].
    + exists l, d, t, "". rewrite append_empty_r. tauto.
    + exists l, d, t, (String "010" ""). split; [|tauto].
      rewrite Hs, Hs0, !append_assoc. reflexivity.
Qed.

(** X17. A job that succeeds leaves every object that existed before it as
    it was, returns a new object, and changes no session entry other than
    "cleaned_df" and "cleaning_complete". *)
Theorem run_cleaning_job_touches_nothing_else (cfg : config) (df : loc)
    (w w' : world) (out : loc) :
  run_cleaning_job cfg df w = Ok (out, w') ->
  heap w !! out = None
  /\ (forall l : loc, is_Some (heap w !! l) -> heap w' !! l = heap w !! l)
  /\ (forall key : string,
        key <> "cleaned_df" -> key <> "cleaning_complete" ->
        session_state w' !! key = session_state w !! key).
Proof.
  intros Hrun.
  destruct (run_cleaning_job_frame cfg df w w' out Hrun) as [Hnew Hkeep].
  split; [exact Hnew|]. split; [exact Hkeep|].
  destruct (heap w !! df) as [t|] eqn:Ht.
  2:{ unfold run_cleaning_job, mbind, M_bind, deref in Hrun.
      rewrite Ht in Hrun. discriminate. }
  rewrite (run_cleaning_job_clean cfg df w t Ht) in Hrun.
  assert (Hss : forall l key,
             key <> "cleaned_df" -> key <> "cleaning_complete" ->
             after_job l (session_state w) !! key = session_state w !! key).
  { intros l key H1 H2. unfold after_job.
    rewrite !lookup_insert_ne by congruence. reflexivity. }
  destruct (email_step_runs cfg).
  - destruct (clean cfg t); [|discriminate].
    injection Hrun as <- <-. intros key. apply Hss.
  - injection Hrun as <- <-. intros key. apply Hss.
Qed.

Lemma run_cleaning_job_touches_nothing_else_witness :
  exists out w',
    run_cleaning_job no_steps 1%positive session_with_contacts = Ok (out, w')
    /\ heap session_with_contacts !! out = None
    /\ heap w' !! 1%positive = heap session_with_contacts !! 1%positive.
Proof.
  destruct (run_cleaning_job no_steps 1%positive session_with_contacts)
    as [[out w']|e] eqn:Hrun; [|vm_compute in Hrun; discriminate].
  destruct (run_cleaning_job_touches_nothing_else no_steps 1%positive
              session_with_contacts w' out Hrun) as (Hnew & Hkeep & _).
  exists out, w'. split; [reflexivity|]. split; [exact Hnew|].
  apply Hkeep. exists contacts. vm_compute. reflexivity.
Defined.

(** X19. On a table whose texts are made of letters and whitespace only,
    the title-case step is title case by whitespace-separated words: the
    first letter of each word upper-cased, the rest lower-cased. *)
Theorem title_case_names_by_words_on_plain_text (t : DataFrame) :
  Forall (fun c => Forall plain_cell (values c)) (columns t) ->
  title_case_names t = Spec.title_case_names_by_words t.
Proof.
  intros Hplain. unfold title_case_names, Spec.title_case_names_by_words.
  f_equal. apply map_ext_Forall. eapply Forall_impl; [|exact Hplain].
  intros c Hc. destruct (is_object c && name_like (name c)); [|reflexivity].
  unfold with_values, str_map. f_equal. apply map_ext_Forall.
  eapply Forall_impl; [|exact Hc].
  intros [|s|z] Hs; try reflexivity. cbn [plain_cell] in Hs.
  f_equal. now apply title_from_words_from with (ws := true).
Qed.

Lemma title_case_names_by_words_on_plain_text_witness :
  title_case_names names_and_cities
  = Spec.title_case_names_by_words names_and_cities.
Proof.
  apply title_case_names_by_words_on_plain_text.
  repeat constructor.
Defined.

(** ** The configuration the page opens with *)

(** X20. With the check boxes as the page opens (Remove Duplicates and Trim
    Whitespace on), the result can still hold duplicate rows: duplicates are
    removed before the texts are trimmed, so rows that differ by surrounding
    whitespace only both stay, and cleaning the result again removes one. *)
Theorem default_job_can_leave_duplicates :
  exists t out out',
    aligned t
    /\ clean default_config t = Ok out
    /\ count_true (duplicated out) = 1%nat
    /\ clean default_config out = Ok out'
    /\ (len out' < len out)%nat
    /\ forall x, clean default_config x
                 = Ok (trim_whitespace (drop_duplicates x)).
Proof.
  exists padded_names.
  exists (trim_whitespace (drop_duplicates padded_names)).
  exists (trim_whitespace
            (drop_duplicates (trim_whitespace (drop_duplicates padded_names)))).
  split; [repeat constructor|]. split; [reflexivity|].
  split; [vm_compute; reflexivity|]. split; [reflexivity|].
  split; [vm_compute; lia|]. intros x. reflexivity.
Qed.
